(** * py-jfif: the JFIF segment scanner/rebuilder and the Exif tag decoder

    A shallow embedding of [jfif.py] and [exif.py] (Python 2).  A Python
    [str] is a byte string and is modelled as [list byte]; Python integers
    are [Z]; buffer indices, which the scanner only ever increases from 0,
    are [nat].  Exceptions are the [Raise] outcome of [result]; loops whose
    bound is not structural take a fuel argument, and running out of it is
    the separate outcome [OutOfFuel].  The scanner of jfif.py never ends
    that way ([scan_total]); the directory loop of exif.py does on a chain
    of directories that is cyclic ([directories_cyclic]): there the Python
    loop runs forever. *)

From Stdlib Require Import ZArith Lia.
From Stdlib Require Import Strings.Byte.
From stdpp Require Import base list gmap strings.

Local Open Scope Z_scope.

(** ** Python values shared by both modules *)

Abbreviation bytes := (list byte).

(** The exceptions the two modules can raise. *)
Inductive exn : Type :=
| IndexError         (* string index out of range *)
| ValueError         (* chr() arg not in range(256); exif.py's own raises *)
| IOError            (* open() of a file that cannot be opened *)
| AttributeError     (* data.read on an object without read *)
| StructError        (* struct.unpack on a string of the wrong size *)
| ZeroDivisionError  (* integer division or modulo by zero *)
| KeyError           (* del d[k] / d[k] on a missing key *)
| AssertionError     (* assert isinstance(item, IFDEntry) *)
| TypeError          (* open() of a name with a NUL byte *)
| OverflowError.     (* chr() of an integer that does not fit a C long *)

Inductive result (A : Type) : Type :=
| Ok (a : A)
| Raise (e : exn)
| OutOfFuel.
Arguments Ok {A} a.
Arguments Raise {A} e.
Arguments OutOfFuel {A}.

Definition bind {A B} (r : result A) (k : A -> result B) : result B :=
  match r with
  | Ok a => k a
  | Raise e => Raise e
  | OutOfFuel => OutOfFuel
  end.

Notation "'let*' x ':=' r 'in' k" := (bind r (fun x => k))
  (at level 10, x name, r at level 200, k at level 200).

(** [ord(c)] of a one-character string. *)
Definition ord (b : byte) : Z := Z.of_N (Byte.to_N b).

(** The range of a C [long], here the 64 bits of the LP64 platforms. *)
Definition LONG_MIN : Z := - 2 ^ 63.
Definition LONG_MAX : Z := 2 ^ 63 - 1.

(** [chr(n)]: the argument is first converted to a C [long], which raises
    OverflowError when it does not fit; then ValueError outside
    [range(256)]. *)
Definition chr (n : Z) : result byte :=
  if (n <? LONG_MIN) || (LONG_MAX <? n) then Raise OverflowError
  else if (0 <=? n) && (n <? 256) then
    match Byte.of_N (Z.to_N n) with
    | Some b => Ok b
    | None => Raise ValueError
    end
  else Raise ValueError.

(** [len(s)] as a Python integer. *)
Definition len {A} (l : list A) : Z := Z.of_nat (length l).

(** [s[i]] for an index [i >= 0]. *)
Definition getitem (s : bytes) (i : nat) : result byte :=
  match s !! i with
  | Some b => Ok b
  | None => Raise IndexError
  end.

(** [s[a:b]] for indices [0 <= a], [0 <= b]: clipped to the string, never
    an error. *)
Definition slice (s : bytes) (a b : nat) : bytes := take (b - a) (drop a s).

(** Whether a file name holds a NUL byte: [open] then raises TypeError
    before it looks at the file system. *)
Definition has_nul (name : bytes) : bool := existsb (Byte.eqb x00) name.

(** [s.startswith(p)]. *)
Fixpoint startswith (s p : bytes) : bool :=
  match p, s with
  | [], _ => true
  | _ :: _, [] => false
  | c :: p', d :: s' => if Byte.eqb c d then startswith s' p' else false
  end.

(** ** The md5 module

    [jfif.py] imports Python's standard [md5] module, which is not part of
    this repository.  It is the MD5 message digest of RFC 1321, written
    here from the RFC; [update] calls accumulate the message, so a hash
    object is modelled by the bytes fed to it so far. *)

Module md5.

Definition mask32 (x : Z) : Z := Z.land x 0xffffffff.

Definition rotl (x c : Z) : Z :=
  mask32 (Z.lor (Z.shiftl x c) (Z.shiftr x (32 - c))).

Definition shifts : list Z :=
  [ 7; 12; 17; 22;  7; 12; 17; 22;  7; 12; 17; 22;  7; 12; 17; 22;
    5;  9; 14; 20;  5;  9; 14; 20;  5;  9; 14; 20;  5;  9; 14; 20;
    4; 11; 16; 23;  4; 11; 16; 23;  4; 11; 16; 23;  4; 11; 16; 23;
    6; 10; 15; 21;  6; 10; 15; 21;  6; 10; 15; 21;  6; 10; 15; 21 ].

(** [K[i] = floor(2^32 * abs(sin(i + 1)))] *)
Definition K : list Z :=
  [
    0xd76aa478; 0xe8c7b756; 0x242070db; 0xc1bdceee;
    0xf57c0faf; 0x4787c62a; 0xa8304613; 0xfd469501;
    0x698098d8; 0x8b44f7af; 0xffff5bb1; 0x895cd7be;
    0x6b901122; 0xfd987193; 0xa679438e; 0x49b40821;
    0xf61e2562; 0xc040b340; 0x265e5a51; 0xe9b6c7aa;
    0xd62f105d; 0x02441453; 0xd8a1e681; 0xe7d3fbc8;
    0x21e1cde6; 0xc33707d6; 0xf4d50d87; 0x455a14ed;
    0xa9e3e905; 0xfcefa3f8; 0x676f02d9; 0x8d2a4c8a;
    0xfffa3942; 0x8771f681; 0x6d9d6122; 0xfde5380c;
    0xa4beea44; 0x4bdecfa9; 0xf6bb4b60; 0xbebfbc70;
    0x289b7ec6; 0xeaa127fa; 0xd4ef3085; 0x04881d05;
    0xd9d4d039; 0xe6db99e5; 0x1fa27cf8; 0xc4ac5665;
    0xf4292244; 0x432aff97; 0xab9423a7; 0xfc93a039;
    0x655b59c3; 0x8f0ccc92; 0xffeff47d; 0x85845dd1;
    0x6fa87e4f; 0xfe2ce6e0; 0xa3014314; 0x4e0811a1;
    0xf7537e82; 0xbd3af235; 0x2ad7d2bb; 0xeb86d391
  ].

Definition byte_of (n : Z) : byte :=
  match Byte.of_N (Z.to_N (n mod 256)) with
  | Some b => b
  | None => x00
  end.

(** The [n] low bytes of [x], least significant first. *)
Fixpoint le_bytes (n : nat) (x : Z) : bytes :=
  match n with
  | O => []
  | S n' => byte_of x :: le_bytes n' (x / 256)
  end.

Fixpoint le_word (bs : bytes) : Z :=
  match bs with
  | [] => 0
  | b :: bs' => ord b + 256 * le_word bs'
  end.

(** The message followed by a 1 bit, zero bits up to 56 bytes modulo 64,
    and the bit length on 64 bits. *)
Definition pad (msg : bytes) : bytes :=
  msg ++ [x80] ++ replicate (Z.to_nat ((55 - len msg) mod 64)) x00
      ++ le_bytes 8 ((8 * len msg) mod 2 ^ 64).

(** [n] consecutive blocks of [size] bytes. *)
Fixpoint blocks (size n : nat) (l : bytes) : list bytes :=
  match n with
  | O => []
  | S n' => take size l :: blocks size n' (drop size l)
  end.

Definition round (M : list Z) (st : Z * Z * Z * Z) (i : Z) : Z * Z * Z * Z :=
  let '(A, B, C, D) := st in
  let nB := Z.lxor B 0xffffffff in
  let nD := Z.lxor D 0xffffffff in
  let '(F, g) :=
    if i <? 16 then (Z.lor (Z.land B C) (Z.land nB D), i)
    else if i <? 32 then (Z.lor (Z.land D B) (Z.land nD C), (5 * i + 1) mod 16)
    else if i <? 48 then (Z.lxor (Z.lxor B C) D, (3 * i + 5) mod 16)
    else (Z.lxor C (Z.lor B nD), (7 * i) mod 16) in
  let F := mask32 (F + A + K !!! Z.to_nat i + M !!! Z.to_nat g) in
  (D, mask32 (B + rotl F (shifts !!! Z.to_nat i)), B, C).

Definition process (st : Z * Z * Z * Z) (chunk : bytes) : Z * Z * Z * Z :=
  let M := le_word <$> blocks 4 16 chunk in
  let '(a0, b0, c0, d0) := st in
  let '(A, B, C, D) := fold_left (round M) (Z.of_nat <$> seq 0 64) st in
  (mask32 (a0 + A), mask32 (b0 + B), mask32 (c0 + C), mask32 (d0 + D)).

Definition digest (msg : bytes) : bytes :=
  let p := pad msg in
  let '(a, b, c, d) :=
    fold_left process (blocks 64 (length p / 64) p)
      (0x67452301, 0xefcdab89, 0x98badcfe, 0x10325476) in
  le_bytes 4 a ++ le_bytes 4 b ++ le_bytes 4 c ++ le_bytes 4 d.

Definition hexdigit (n : Z) : Ascii.ascii :=
  Ascii.ascii_of_nat (Z.to_nat (if n <? 10 then 48 + n else 87 + n)).

Fixpoint hex (bs : bytes) : string :=
  match bs with
  | [] => EmptyString
  | b :: bs' => String (hexdigit (ord b / 16)) (String (hexdigit (ord b mod 16)) (hex bs'))
  end.

(** [h.hexdigest()] of a hash object fed [msg]. *)
Definition hexdigest (msg : bytes) : string := hex (digest msg).

End md5.

(** ** jfif.py *)

Module jfif.

(** JPEG marker codes (module constants). *)
Definition SOF_0 : Z := 0xc0.
Definition SOF_1 : Z := 0xc1.
Definition SOF_2 : Z := 0xc2.
Definition SOF_3 : Z := 0xc3.
Definition SOI : Z := 0xd8.
Definition EOI : Z := 0xd9.
Definition SOS : Z := 0xda.
Definition APP_0 : Z := 0xe0.
Definition APP_1 : Z := 0xe1.
Definition APP_2 : Z := 0xe2.
Definition APP_3 : Z := 0xe3.
Definition APP_4 : Z := 0xe4.
Definition APP_5 : Z := 0xe5.
Definition APP_6 : Z := 0xe6.
Definition APP_7 : Z := 0xe7.
Definition APP_8 : Z := 0xe8.
Definition APP_9 : Z := 0xe9.
Definition APP_10 : Z := 0xea.
Definition APP_11 : Z := 0xeb.
Definition APP_12 : Z := 0xec.
Definition APP_13 : Z := 0xed.
Definition APP_14 : Z := 0xee.
Definition APP_15 : Z := 0xef.
Definition COM : Z := 0xfe.

(** A segment is the tuple [(marker, payload)]. *)
Definition segment : Type := Z * bytes.

(** A JFIF instance: its only attribute is the list [_segments]. *)
Record JFIF : Type := mkJFIF { _segments : list segment }.

(** *** The scanning loop of [JFIF.__init__] *)

(** The test of the inner [while] of the SOS branch:
    [(b2 == '\xff') and (b3 != '\x00') and
     (not((b3 >= '\xd0') and (b3 <= '\xd7')))]. *)
Definition scan_end (b2 b3 : byte) : bool :=
  (ord b2 =? 0xff) && negb (ord b3 =? 0x00)
  && negb ((0xd0 <=? ord b3) && (ord b3 <=? 0xd7)).

(** The inner loop [while j < imglen: ...]: [Ok (Some j)] when it breaks at
    [j], [Ok None] when the loop condition fails, IndexError when [img[j+1]]
    is past the end. *)
Fixpoint sos_search (fuel : nat) (img : bytes) (j : nat)
  : result (option nat) :=
  if negb (j <? length img)%nat then Ok None
  else match fuel with
  | O => OutOfFuel
  | S fuel' =>
    let* b2 := getitem img j in
    let* b3 := getitem img (j + 1) in
    if scan_end b2 b3 then Ok (Some j)
    else sos_search fuel' img (j + 1)
  end.

(** The standalone markers: [b == '\x01' or (b >= '\xd0' and b <= '\xd9')]. *)
Definition standalone (b : byte) : bool :=
  (ord b =? 0x01) || ((0xd0 <=? ord b) && (ord b <=? 0xd9)).

(** One iteration of the outer loop [while i < imglen: ...]: the index and
    the segment list it leaves. *)
Definition scan_body (img : bytes) (i : nat) (segs : list segment)
  : result (nat * list segment) :=
  let* b := getitem img i in
  if ord b =? 0xff then
    let i := (i + 1)%nat in
    let* b := getitem img i in
    if standalone b then
      Ok ((i + 1)%nat, segs)
    else if ord b =? 0xda then
      let* r := sos_search (length img) img (i + 1) in
      match r with
      | Some j =>
          let segs := segs ++ [(0xda, slice img (i + 1) j)] in
          let i := (j - 1)%nat in
          Ok ((i + 1)%nat, segs)
      | None => Ok ((i + 1)%nat, segs)
      end
    else
      let* c1 := getitem img (i + 1) in
      let* c2 := getitem img (i + 2) in
      let ln := ord c1 * 256 + ord c2 in
      let segs := segs ++ [(ord b, slice img (i + 3) (i + 1 + Z.to_nat ln))] in
      let i := (i + Z.to_nat ln)%nat in
      Ok ((i + 1)%nat, segs)
  else
    Ok ((i + 1)%nat, segs).

(** The outer loop, with the segment list built so far. *)
Fixpoint scan_loop (fuel : nat) (img : bytes) (i : nat)
    (segs : list segment) : result (list segment) :=
  if negb (i <? length img)%nat then Ok segs
  else match fuel with
  | O => OutOfFuel
  | S fuel' =>
      let* st := scan_body img i segs in
      scan_loop fuel' img st.1 st.2
  end.

(** The scan of a whole buffer: [i = 0], [self._segments = []]; every
    iteration advances [i], so [len(img)] iterations are enough. *)
Definition scan (img : bytes) : result (list segment) :=
  scan_loop (length img) img 0 [].

(** What the constructor can be given.  A file-like object is known by what
    its [read()] returns; [PyOther] is any object that is neither a string,
    a list, a JFIF instance nor has a [read] attribute. *)
Inductive pyobj : Type :=
| PyStr (s : bytes)
| PyList (l : list segment)
| PyInstance (j : JFIF)
| PyFile (contents : bytes)
| PyOther.

(** [open(name, 'rb').read()].  The file system is the function [fs] from
    a file name to the file's bytes ([None]: the file cannot be opened,
    IOError); a name with a NUL byte is refused with TypeError before
    that. *)
Definition open_read (fs : bytes -> option bytes) (name : bytes)
  : result bytes :=
  if has_nul name then Raise TypeError
  else match fs name with
       | Some img => Ok img
       | None => Raise IOError
       end.

(** [JFIF.__init__(self, data)]. *)
Definition __init__ (fs : bytes -> option bytes) (data : pyobj) : result JFIF :=
  let scan_img img := let* segs := scan img in Ok (mkJFIF segs) in
  match data with
  | PyStr data =>
      if startswith data [xff; xd8; xff] then scan_img data
      else let* img := open_read fs data in scan_img img
  | PyList data => Ok (mkJFIF data)
  | PyInstance data => Ok (mkJFIF (_segments data))
  | PyFile img => scan_img img
  | PyOther => Raise AttributeError
  end.

(** *** [JFIF.getBytes] *)

(** One iteration of the [for] loop: [img] extended by the segment [s]. *)
Definition getBytes_step (img : bytes) (s : segment) : result bytes :=
  if s.1 =? SOS then
    Ok (img ++ [xff; xda] ++ s.2)
  else
    let img := img ++ [xff] in
    let* c := chr s.1 in
    let img := img ++ [c] in
    let ln := len s.2 + 2 in
    let* hi := chr (Z.shiftr ln 8) in
    let img := img ++ [hi] in
    let* lo := chr (Z.land ln 0xff) in
    let img := img ++ [lo] in
    Ok (img ++ s.2).

Fixpoint getBytes_loop (segs : list segment) (img : bytes) : result bytes :=
  match segs with
  | [] => Ok img
  | s :: segs' => let* img := getBytes_step img s in getBytes_loop segs' img
  end.

Definition getBytes (self : JFIF) : result bytes :=
  let* img := getBytes_loop (_segments self) [xff; xd8] in
  Ok (img ++ [xff; xd9]).

(** *** [JFIF.getByteSize] *)



(** *** [JFIF.getMD5] *)

(** The [for] loop over the segments; [h] is the hash object, that is the
    bytes [h.update] has been given so far. *)
Fixpoint getMD5_loop (segs : list segment) (h : bytes) : result bytes :=
  match segs with
  | [] => Ok h
  | s :: segs' =>
      if s.1 =? COM then getMD5_loop segs' h
      else if (APP_0 <=? s.1) && (s.1 <=? APP_15) then getMD5_loop segs' h
      else
        let* c := chr s.1 in
        let h := h ++ [c] in
        let h := h ++ s.2 in
        getMD5_loop segs' h
  end.

Definition getMD5 (self : JFIF) : result string :=
  let* h := getMD5_loop (_segments self) [] in
  Ok (md5.hexdigest h).

(** *** [JFIF.getSegments] *)

Definition getSegments (self : JFIF) : list segment := _segments self.

(** *** [JFIF.getSize] *)

(** [None] is Python's [None], returned when the loop ends without a
    [return]. *)
Fixpoint getSize_loop (segs : list segment) : result (option (Z * Z)) :=
  match segs with
  | [] => Ok None
  | s :: segs' =>
      if (SOF_0 <=? s.1) && (s.1 <=? SOF_3) then
        let* b3 := getitem s.2 3 in
        let* b4 := getitem s.2 4 in
        let* b1 := getitem s.2 1 in
        let* b2 := getitem s.2 2 in
        Ok (Some (ord b3 * 256 + ord b4, ord b1 * 256 + ord b2))
      else getSize_loop segs'
  end.

Definition getSize (self : JFIF) : result (option (Z * Z)) :=
  getSize_loop (_segments self).

(** *** [JFIF.write] *)

(** A computation that writes to a file object: the state is the list of
    the strings passed to [outfile.write] so far, oldest first. *)
Definition writer (A : Type) : Type := list bytes -> list bytes * result A.

Definition w_ret {A} (a : A) : writer A := fun out => (out, Ok a).

Definition w_lift {A} (r : result A) : writer A := fun out => (out, r).

Definition w_bind {A B} (m : writer A) (k : A -> writer B) : writer B :=
  fun out =>
    match m out with
    | (out', Ok a) => k a out'
    | (out', Raise e) => (out', Raise e)
    | (out', OutOfFuel) => (out', OutOfFuel)
    end.

(** [outfile.write(s)] *)
Definition outfile_write (s : bytes) : writer unit :=
  fun out => (out ++ [s], Ok tt).

(** The body of the [for] loop of [write]. *)
Definition write_step (s : segment) : writer unit :=
  if s.1 =? SOS then
    w_bind (outfile_write [xff; xda]) (fun _ =>
    outfile_write s.2)
  else
    w_bind (outfile_write [xff]) (fun _ =>
    w_bind (w_lift (chr s.1)) (fun c =>
    w_bind (outfile_write [c]) (fun _ =>
    let ln := len s.2 + 2 in
    w_bind (w_lift (chr (Z.shiftr ln 8))) (fun hi =>
    w_bind (outfile_write [hi]) (fun _ =>
    w_bind (w_lift (chr (Z.land ln 0xff))) (fun lo =>
    w_bind (outfile_write [lo]) (fun _ =>
    outfile_write s.2))))))).

Fixpoint write_loop (segs : list segment) : writer unit :=
  match segs with
  | [] => w_ret tt
  | s :: segs' => w_bind (write_step s) (fun _ => write_loop segs')
  end.

(** What [write] can be given as [outfile]: a file name, or an object with
    a [write] method. *)
Inductive outarg : Type :=
| OutName (name : bytes)
| OutObject.

(** [JFIF.write(self, outfile)].  [opens name] tells whether
    [open(name, 'wb')] succeeds; the state of the writer is that of the
    file object written to, the one opened or the one given. *)
Definition write (opens : bytes -> bool) (self : JFIF) (outfile : outarg)
  : writer unit :=
  let body :=
    w_bind (outfile_write [xff; xd8]) (fun _ =>
    w_bind (write_loop (_segments self)) (fun _ =>
    outfile_write [xff; xd9])) in
  match outfile with
  | OutName name =>
      if has_nul name then w_lift (Raise TypeError)
      else if opens name then body else w_lift (Raise IOError)
  | OutObject => body
  end.

(** *** The test code under [if __name__ == '__main__'] *)

(** The loop that builds [ns] from [img.getSegments()]: the JFIF header is
    copied, every other application segment and every comment is skipped,
    everything else is copied. *)
Fixpoint strip_loop (segs ns : list segment) : list segment :=
  match segs with
  | [] => ns
  | s :: segs' =>
      if (s.1 =? APP_0) && startswith s.2 [x4a; x46; x49; x46; x00] then
        strip_loop segs' (ns ++ [s])
      else if ((APP_0 <=? s.1) && (s.1 <=? APP_15)) || (s.1 =? COM) then
        strip_loop segs' ns
      else
        strip_loop segs' (ns ++ [s])
  end.

End jfif.

(** ** exif.py *)

Module exif.

(** [s[a:b]] for any integers [a], [b]: a negative index counts from the
    end, and both are clipped to the string. *)
Definition slice_index (n i : Z) : Z :=
  if i <? 0 then Z.max 0 (i + n) else Z.min i n.

Definition py_slice (s : bytes) (a b : Z) : bytes :=
  slice s (Z.to_nat (slice_index (len s) a)) (Z.to_nat (slice_index (len s) b)).

(** Python 2 [a / b] on integers: floor division, ZeroDivisionError when
    [b] is 0. *)
Definition py_div (a b : Z) : result Z :=
  if b =? 0 then Raise ZeroDivisionError else Ok (a / b).

(** *** [struct.unpack]

    The formats of exif.py have no byte-order prefix: sizes and alignment
    are the C compiler's ([h]: 2 bytes, [i] and [I]: 4 bytes, each aligned
    to its size) and the byte order is the host's, the parameter [native]
    of everything below. *)
Inductive byteorder : Type := LittleEndian | BigEndian.

Fixpoint le_uint (bs : bytes) : Z :=
  match bs with
  | [] => 0
  | b :: bs' => ord b + 256 * le_uint bs'
  end.

Definition uint (native : byteorder) (bs : bytes) : Z :=
  match native with
  | LittleEndian => le_uint bs
  | BigEndian => le_uint (reverse bs)
  end.

(** Two's complement on [8 * len bs] bits. *)
Definition sint (native : byteorder) (bs : bytes) : Z :=
  let n := uint native bs in
  let w := 8 * len bs in
  if n <? 2 ^ (w - 1) then n else n - 2 ^ w.

(** [struct.unpack(fmt, s)] raises struct.error unless [len(s)] is
    [struct.calcsize(fmt)]. *)
Definition sized (size : nat) (s : bytes) : result bytes :=
  if (length s =? size)%nat then Ok s else Raise StructError.

Definition unpack_h (native : byteorder) (s : bytes) : result Z :=
  let* s := sized 2 s in Ok (sint native s).

Definition unpack_i (native : byteorder) (s : bytes) : result Z :=
  let* s := sized 4 s in Ok (sint native s).

Definition unpack_xxh (native : byteorder) (s : bytes) : result Z :=
  let* s := sized 4 s in Ok (sint native (slice s 2 4)).

Definition unpack_II (native : byteorder) (s : bytes) : result (Z * Z) :=
  let* s := sized 8 s in
  Ok (uint native (slice s 0 4), uint native (slice s 4 8)).

Definition unpack_hhii (native : byteorder) (s : bytes)
  : result (Z * Z * Z * Z) :=
  let* s := sized 12 s in
  Ok (sint native (slice s 0 2), sint native (slice s 2 4),
      sint native (slice s 4 8), sint native (slice s 8 12)).

(** *** The tag tables *)

Definition tags_by_id_items : list (Z * string) :=
  [
    (254, "NewSubfileType");
    (255, "SubfileType");
    (256, "ImageWidth");
    (257, "ImageLength");
    (258, "BitsPerSample");
    (259, "Compression");
    (262, "PhotometricInterpretation");
    (263, "Threshholding");
    (264, "CellWidth");
    (265, "CellLength");
    (266, "FillOrder");
    (269, "DocumentName");
    (270, "ImageDescription");
    (271, "Make");
    (272, "Model");
    (273, "StripOffsets");
    (274, "Orientation");
    (277, "SamplesPerPixel");
    (278, "RowsPerStrip");
    (279, "StripByteCounts");
    (280, "MinSampleValue");
    (281, "MaxSampleValue");
    (282, "XResolution");
    (283, "YResolution");
    (284, "PlanarConfiguration");
    (285, "PageName");
    (286, "XPosition");
    (287, "YPosition");
    (288, "FreeOffsets");
    (289, "FreeByteCounts");
    (290, "GrayResponseUnit");
    (291, "GrayResponseCurve");
    (292, "T4Options");
    (293, "T6Options");
    (296, "ResolutionUnit");
    (297, "PageNumber");
    (301, "TransferFunction");
    (305, "Software");
    (306, "DateTime");
    (315, "Artist");
    (316, "HostComputer");
    (317, "Predictor");
    (318, "WhitePoint");
    (319, "PrimaryChromaticities");
    (320, "ColorMap");
    (321, "HalftoneHints");
    (322, "TileWidth");
    (323, "TileLength");
    (324, "TileOffsets");
    (325, "TileByteCounts");
    (332, "InkSet");
    (333, "InkNames");
    (334, "NumberOfInks");
    (336, "DotRange");
    (337, "TargetPrinter");
    (338, "ExtraSamples");
    (339, "SampleFormat");
    (340, "SMinSampleValue");
    (341, "SMaxSampleValue");
    (342, "TransferRange");
    (512, "JPEGProc");
    (513, "JPEGInterchangeFormat");
    (514, "JPEGInterchangeFormatLngth");
    (515, "JPEGRestartInterval");
    (517, "JPEGLosslessPredictors");
    (518, "JPEGPointTransforms");
    (519, "JPEGQTables");
    (520, "JPEGDCTables");
    (521, "JPEGACTables");
    (529, "YCbCrCoefficients");
    (530, "YCbCrSubSampling");
    (531, "YCbCrPositioning");
    (532, "ReferenceBlackWhite");
    (33432, "Copyright")
  ].

Definition tags_by_id : gmap Z string := list_to_map tags_by_id_items.

(** [for id, name in tags_by_id.items(): tags_by_name[name] = id] *)
Definition tags_by_name : gmap string Z :=
  fold_left (fun m p => <[p.2 := p.1]> m) tags_by_id_items ∅.

(** A key of the table: an integer id or a name. *)
Inductive key : Type :=
| KInt (n : Z)
| KStr (s : string).

#[global] Instance key_eq_dec : EqDecision key.
Proof. solve_decision. Defined.

#[global] Instance key_countable : Countable key :=
  inj_countable'
    (fun k => match k with KInt n => inl n | KStr s => inr s end)
    (fun x => match x with inl n => KInt n | inr s => KStr s end)
    (fun k => match k with KInt _ => eq_refl | KStr _ => eq_refl end).

Definition _normalize_key (k : key) : key :=
  match k with
  | KStr s =>
      match tags_by_name !! s with
      | Some n => KInt n
      | None => KStr s
      end
  | KInt _ => k
  end.

(** *** [IFDEntry] *)

(** The value of an entry: an integer or a string. *)
Inductive pyval : Type :=
| VInt (n : Z)
| VStr (s : bytes).

Record IFDEntry : Type := mkIFDEntry {
  typ : option Z;
  id : Z;
  value : pyval;
  name : option string
}.

(** [IFDEntry(tag_id, value, typ)] *)
Definition IFDEntry__init__ (tag_id : Z) (val : pyval) (ty : option Z)
  : IFDEntry :=
  {| typ := ty; id := tag_id; value := val; name := tags_by_id !! tag_id |}.

(** *** [_decode_tiff_value] *)

Definition _decode_tiff_value (native : byteorder) (data : bytes) (offset : Z)
  : result IFDEntry :=
  let chunk := py_slice data offset (offset + 12) in
  if negb (length chunk =? 12)%nat then Raise ValueError
  else
    let* hdr := unpack_hhii native chunk in
    let '(tag, ty, num_vals, val_off) := hdr in
    let* val :=
      if ty =? 1 then Ok (VInt val_off)
      else if ty =? 2 then
        Ok (VStr (py_slice data val_off (val_off + num_vals - 1)))
      else if ty =? 3 then Ok (VInt val_off)
      else if ty =? 4 then Ok (VInt val_off)
      else if ty =? 5 then
        let* nd := unpack_II native (py_slice data val_off (val_off + 8)) in
        let* q := py_div nd.1 nd.2 in
        Ok (VInt q)
      else Raise ValueError in
    Ok (IFDEntry__init__ tag val (Some ty)).

(** *** [Exif] *)

(** An Exif instance: the dict [entries] and the flag [dirty] (0 or 1). *)
Record Exif : Type := mkExif {
  entries : gmap key IFDEntry;
  dirty : Z
}.

(** What [__setitem__] can be given as [item]. *)
Inductive pyitem : Type :=
| ItemEntry (e : IFDEntry)
| ItemOther.

Definition __getitem__ (self : Exif) (k : key) : result IFDEntry :=
  let k := _normalize_key k in
  match entries self !! k with
  | Some e => Ok e
  | None => Raise KeyError
  end.

Definition __setitem__ (self : Exif) (k : key) (item : pyitem) : result Exif :=
  match item with
  | ItemEntry e =>
      let k := _normalize_key k in
      Ok {| entries := <[k := e]> (entries self); dirty := 1 |}
  | ItemOther => Raise AssertionError
  end.

Definition __delitem__ (self : Exif) (k : key) : result Exif :=
  let k := _normalize_key k in
  match entries self !! k with
  | Some _ =>
      Ok {| entries := delete k (entries self); dirty := 1 |}
  | None => Raise KeyError
  end.

(** [for i in range(num_entries): ...] of [Exif.__init__]: the table and
    the offset after [n] iterations. *)
Fixpoint decode_entries (native : byteorder) (n : nat) (data : bytes)
    (offset : Z) (self : Exif) : result (Exif * Z) :=
  match n with
  | O => Ok (self, offset)
  | S n' =>
      let* tag := _decode_tiff_value native data offset in
      let* self := __setitem__ self (KInt (id tag)) (ItemEntry tag) in
      decode_entries native n' data (offset + 12) self
  end.

(** [while 1: ...] of [Exif.__init__]; it ends only at a zero offset or by
    an exception, so it takes fuel. *)
Fixpoint directories (native : byteorder) (fuel : nat) (data : bytes)
    (offset : Z) (self : Exif) : result Exif :=
  match fuel with
  | O => OutOfFuel
  | S fuel' =>
      let* offset := unpack_i native (py_slice data offset (offset + 4)) in
      if offset =? 0 then Ok self
      else
        let* num_entries :=
          unpack_h native (py_slice data offset (offset + 2)) in
        let offset := offset + 2 in
        let* so :=
          decode_entries native (Z.to_nat num_entries) data offset self in
        directories native fuel' data so.2 so.1
  end.

(** [Exif.__init__(self, data=None)] *)
Definition __init__ (native : byteorder) (fuel : nat) (data : option bytes)
  : result Exif :=
  let self := {| entries := ∅; dirty := 0 |} in
  match data with
  | None | Some [] => Ok self
  | Some data =>
      let* d0 := getitem data 0 in
      if negb (ord d0 =? 0x49) then Raise ValueError
      else
        let* d1 := getitem data 1 in
        if negb (ord d1 =? 0x49) then Raise ValueError
        else
          let* magic := unpack_xxh native (py_slice data 0 4) in
          if negb (magic =? 42) then Raise ValueError
          else directories native fuel data 4 self
  end.

End exif.

(** * Predicates of the statements *)

Section Vocabulary.
Import jfif.

(** A scan payload as the search leaves it: no byte pair inside it, nor
    its last byte with the [FF] that follows, ends the scan. *)
Fixpoint sos_clean (p : bytes) : Prop :=
  match p with
  | [] => True
  | b2 :: p' => scan_end b2 (hd xff p') = false /\ sos_clean p'
  end.

(** The markers of the segments the scanner frames with a length. *)
Definition framed_marker (m : Z) : Prop :=
  0 <= m < 256 /\ m <> 0x01 /\ ~ (0xd0 <= m <= 0xda).

(** A segment as the scanner emits it. *)
Definition scanned (s : segment) : Prop :=
  (s.1 = 0xda /\ sos_clean s.2) \/
  (framed_marker s.1 /\ len s.2 <= 65533).

(** Some SOS segment of the list is directly followed by a segment whose
    marker is 0. *)
Fixpoint sos_then_zero (segs : list segment) : bool :=
  match segs with
  | [] => false
  | s :: rest =>
      match rest with
      | [] => false
      | t :: _ => ((s.1 =? SOS) && (t.1 =? 0)) || sos_then_zero rest
      end
  end.

(** The marker byte that follows the frames of [segs] in the rebuilt
    stream. *)
Definition next_marker (segs : list segment) : Z :=
  match segs with
  | [] => EOI
  | s :: _ => s.1
  end.


(** The test of [getSize]: a start-of-frame marker. *)
Definition sof (m : Z) : bool := (SOF_0 <=? m) && (m <=? SOF_3).

(** The segments [getMD5] skips: comments and application segments. *)
Definition metadata (m : Z) : bool :=
  (m =? COM) || ((APP_0 <=? m) && (m <=? APP_15)).

(** Two segment lists with the same markers that differ at most in the
    payloads of comment and application segments. *)
Definition same_but_metadata (segs1 segs2 : list segment) : Prop :=
  Forall2 (fun s t => s.1 = t.1 /\ (metadata s.1 = true \/ s.2 = t.2))
    segs1 segs2.

(** The 127 bytes behind the first byte, D1, of the two colliding MD5
    messages of Wang and Yu (2005). *)
Definition collision_payload_1 : bytes :=
  [
    x31; xdd; x02; xc5; xe6; xee; xc4; x69; x3d; x9a; x06; x98;
    xaf; xf9; x5c; x2f; xca; xb5; x87; x12; x46; x7e; xab; x40;
    x04; x58; x3e; xb8; xfb; x7f; x89; x55; xad; x34; x06; x09;
    xf4; xb3; x02; x83; xe4; x88; x83; x25; x71; x41; x5a; x08;
    x51; x25; xe8; xf7; xcd; xc9; x9f; xd9; x1d; xbd; xf2; x80;
    x37; x3c; x5b; xd8; x82; x3e; x31; x56; x34; x8f; x5b; xae;
    x6d; xac; xd4; x36; xc9; x19; xc6; xdd; x53; xe2; xb4; x87;
    xda; x03; xfd; x02; x39; x63; x06; xd2; x48; xcd; xa0; xe9;
    x9f; x33; x42; x0f; x57; x7e; xe8; xce; x54; xb6; x70; x80;
    xa8; x0d; x1e; xc6; x98; x21; xbc; xb6; xa8; x83; x93; x96;
    xf9; x65; x2b; x6f; xf7; x2a; x70
  ].

Definition collision_payload_2 : bytes :=
  [
    x31; xdd; x02; xc5; xe6; xee; xc4; x69; x3d; x9a; x06; x98;
    xaf; xf9; x5c; x2f; xca; xb5; x07; x12; x46; x7e; xab; x40;
    x04; x58; x3e; xb8; xfb; x7f; x89; x55; xad; x34; x06; x09;
    xf4; xb3; x02; x83; xe4; x88; x83; x25; xf1; x41; x5a; x08;
    x51; x25; xe8; xf7; xcd; xc9; x9f; xd9; x1d; xbd; x72; x80;
    x37; x3c; x5b; xd8; x82; x3e; x31; x56; x34; x8f; x5b; xae;
    x6d; xac; xd4; x36; xc9; x19; xc6; xdd; x53; xe2; x34; x87;
    xda; x03; xfd; x02; x39; x63; x06; xd2; x48; xcd; xa0; xe9;
    x9f; x33; x42; x0f; x57; x7e; xe8; xce; x54; xb6; x70; x80;
    x28; x0d; x1e; xc6; x98; x21; xbc; xb6; xa8; x83; x93; x96;
    xf9; x65; xab; x6f; xf7; x2a; x70
  ].

(** A file system without any file. *)
Definition no_files : bytes -> option bytes := fun _ => None.

(** A segment [getBytes] can frame: an SOS segment, or a marker that is a
    byte value with a payload whose length plus 2 fits in 16 bits. *)
Definition encodable (s : segment) : Prop :=
  s.1 = SOS \/ (0 <= s.1 < 256 /\ len s.2 <= 65533).

End Vocabulary.

Section ExifVocabulary.
Import exif.

(** An Exif block, little-endian, with two directories: at offset 8 one
    entry (ImageWidth, Long, 7) and the next-directory pointer 26; at
    offset 26 one entry (ImageLength, Long, 9) and the pointer 0. *)
Definition two_directories : bytes :=
  [x49; x49; x2a; x00; x08; x00; x00; x00;
   x01; x00;
   x00; x01; x04; x00; x01; x00; x00; x00; x07; x00; x00; x00;
   x1a; x00; x00; x00;
   x01; x00;
   x01; x01; x04; x00; x01; x00; x00; x00; x09; x00; x00; x00;
   x00; x00; x00; x00].

(** An Exif block, little-endian, with one directory of one entry
    (ImageWidth, Long, 7). *)
Definition one_directory : bytes :=
  [x49; x49; x2a; x00; x08; x00; x00; x00;
   x01; x00;
   x00; x01; x04; x00; x01; x00; x00; x00; x07; x00; x00; x00;
   x00; x00; x00; x00].

(** A directory entry (XResolution, Rational, count 1, offset 12),
    little-endian, followed at offset 12 by the numerator [num] and the
    denominator [dem], one byte each and three zero bytes. *)
Definition rational_entry (num dem : byte) : bytes :=
  [x1a; x01; x05; x00; x01; x00; x00; x00; x0c; x00; x00; x00;
   num; x00; x00; x00; dem; x00; x00; x00].

(** An Exif block, little-endian, whose only directory, at offset 8, has
    no entry and names itself as the next directory. *)
Definition cyclic_directory : bytes :=
  [x49; x49; x2a; x00; x08; x00; x00; x00;
   x00; x00;
   x08; x00; x00; x00].

(** [chain_dir native data p d]: [d] is the offset of a directory of the
    chain that starts with the offset stored at [p]; the offset of the
    next directory is stored behind the last entry of a directory, at
    [d + 2 + 12 n] for a directory at [d] with [n] entries. *)
Inductive chain_dir (native : byteorder) (data : bytes) : Z -> Z -> Prop :=
| chain_first (p d : Z) :
    unpack_i native (py_slice data p (p + 4)) = Ok d -> d <> 0 ->
    chain_dir native data p d
| chain_next (p d n d' : Z) :
    unpack_i native (py_slice data p (p + 4)) = Ok d -> d <> 0 ->
    unpack_h native (py_slice data d (d + 2)) = Ok n ->
    chain_dir native data (d + 2 + 12 * Z.max 0 n) d' ->
    chain_dir native data p d'.

(** An entry of the chain of directories of a block: the entry number [i]
    of a directory at [d], a directory of the chain that starts with the
    offset stored at 4. *)
Definition chain_entry (native : byteorder) (data : bytes) (e : IFDEntry)
  : Prop :=
  exists d n i,
    chain_dir native data 4 d /\
    unpack_h native (py_slice data d (d + 2)) = Ok n /\
    0 <= i < n /\
    _decode_tiff_value native data (d + 2 + 12 * i) = Ok e.

(** [chain_ends native data p k]: the chain that starts with the offset
    stored at [p] has [k] directories, every entry of which can be
    decoded, and ends with the offset 0. *)
Inductive chain_ends (native : byteorder) (data : bytes) : Z -> nat -> Prop :=
| chain_ends_zero (p : Z) :
    unpack_i native (py_slice data p (p + 4)) = Ok 0 ->
    chain_ends native data p 0
| chain_ends_dir (p d n : Z) (k : nat) :
    unpack_i native (py_slice data p (p + 4)) = Ok d -> d <> 0 ->
    unpack_h native (py_slice data d (d + 2)) = Ok n ->
    (forall i, 0 <= i < n ->
       exists e, _decode_tiff_value native data (d + 2 + 12 * i) = Ok e) ->
    chain_ends native data (d + 2 + 12 * Z.max 0 n) k ->
    chain_ends native data p (S k).

(** An entry as the constructor stores it: under its own id, with the name
    the tag table gives that id and one of the five types. *)
Definition decoded_under (k : key) (e : IFDEntry) : Prop :=
  k = KInt (id e) /\ name e = tags_by_id !! id e /\
  exists ty, typ e = Some ty /\ 1 <= ty <= 5.

(** An Exif block, little-endian: one directory with the entry
    (Make, Ascii, count 5, offset 26), and at offset 26 the text ACME and
    a zero byte. *)
Definition ascii_block : bytes :=
  [x49; x49; x2a; x00; x08; x00; x00; x00;
   x01; x00;
   x0f; x01; x02; x00; x05; x00; x00; x00; x1a; x00; x00; x00;
   x00; x00; x00; x00;
   x41; x43; x4d; x45; x00].

End ExifVocabulary.

(** * Properties *)

(** ** Bytes and outcomes *)

Lemma bind_Ok {A B} (r : result A) (k : A -> result B) (b : B) :
  bind r k = Ok b -> exists a, r = Ok a /\ k a = Ok b.
Proof. destruct r; simpl; intros H; try discriminate. eauto. Qed.

(** [inv_bind H as x Hx]: from [H : (let* x := r in k) = Ok b], the value
    [x] of [r], [Hx : r = Ok x] and [H : k x = Ok b]. *)
Tactic Notation "inv_bind" hyp(H) "as" ident(x) ident(Hx) :=
  apply bind_Ok in H; destruct H as (x & Hx & H).

Lemma ord_range (b : byte) : 0 <= ord b < 256.
Proof.
  unfold ord. pose proof (Byte.to_N_bounded b). lia.
Qed.

Lemma chr_ord (b : byte) : chr (ord b) = Ok b.
Proof.
  unfold chr, LONG_MIN, LONG_MAX. pose proof (ord_range b).
  destruct (Z.ltb_spec (ord b) (- 2 ^ 63)); [lia|].
  destruct (Z.ltb_spec (2 ^ 63 - 1) (ord b)); [lia|]. simpl orb. cbv iota.
  destruct (Z.leb_spec 0 (ord b)); [|lia].
  destruct (Z.ltb_spec (ord b) 256); [|lia]. simpl.
  unfold ord. rewrite N2Z.id, Byte.of_to_N. reflexivity.
Qed.

Lemma chr_Ok (n : Z) (b : byte) : chr n = Ok b -> ord b = n.
Proof.
  unfold chr. destruct (_ || _); [discriminate|].
  destruct (Z.leb_spec 0 n); simpl; [|discriminate].
  destruct (n <? 256); [|discriminate].
  destruct (Byte.of_N (Z.to_N n)) as [b'|] eqn:E; intros [= <-].
  apply Byte.to_of_N in E. unfold ord. rewrite E. lia.
Qed.

Lemma chr_in_range (n : Z) : 0 <= n < 256 -> exists b, chr n = Ok b.
Proof.
  intros Hn. unfold chr, LONG_MIN, LONG_MAX.
  destruct (Z.ltb_spec n (- 2 ^ 63)); [lia|].
  destruct (Z.ltb_spec (2 ^ 63 - 1) n); [lia|]. simpl orb. cbv iota.
  destruct (Z.leb_spec 0 n); [|lia]. destruct (Z.ltb_spec n 256); [|lia].
  simpl. destruct (Byte.of_N (Z.to_N n)) as [b|] eqn:E; [eauto|].
  apply Byte.of_N_None_iff in E. lia.
Qed.

Lemma ord_inj (b c : byte) : ord b = ord c -> b = c.
Proof.
  intros H. pose proof (chr_ord b) as Hb. rewrite H, chr_ord in Hb.
  congruence.
Qed.


Lemma len_nonneg {A} (l : list A) : 0 <= len l.
Proof. unfold len. lia. Qed.

(** ** jfif.py: size against rebuilt bytes *)

Section ByteSize.
Import jfif.






End ByteSize.

(** ** jfif.py: the scanning loops *)

Section Scanner.
Import jfif.

Lemma getitem_Ok (s : bytes) (i : nat) (b : byte) :
  getitem s i = Ok b <-> s !! i = Some b.
Proof. unfold getitem. destruct (s !! i); split; congruence. Qed.

Lemma getitem_Raise (s : bytes) (i : nat) :
  (length s <= i)%nat -> getitem s i = Raise IndexError.
Proof. intros H. unfold getitem. by rewrite (lookup_ge_None_2 s i). Qed.

Lemma lookup_app_plus (pre l : bytes) (k : nat) :
  (pre ++ l) !! (length pre + k)%nat = l !! k.
Proof. rewrite lookup_app_r by lia. f_equal. lia. Qed.

Lemma slice_cons (s : bytes) (a b : nat) (c : byte) :
  (a < b)%nat -> s !! a = Some c -> slice s a b = c :: slice s (S a) b.
Proof.
  intros Hab Hc. unfold slice.
  rewrite (drop_S _ _ _ Hc).
  replace (b - a)%nat with (S (b - S a)) by lia. reflexivity.
Qed.

Lemma slice_empty (s : bytes) (a : nat) : slice s a a = [].
Proof. unfold slice. by rewrite Nat.sub_diag. Qed.

Lemma slice_app_exact (pre p rest : bytes) :
  slice (pre ++ p ++ rest) (length pre) (length pre + length p) = p.
Proof.
  unfold slice. rewrite drop_app_length.
  replace (length pre + length p - length pre)%nat with (length p) by lia.
  by rewrite take_app_length.
Qed.

Lemma slice_app_eq (pre p rest s : bytes) (a b : nat) :
  s = pre ++ p ++ rest -> a = length pre -> b = (length pre + length p)%nat ->
  slice s a b = p.
Proof. intros -> -> ->. apply slice_app_exact. Qed.

Lemma slice_length_le (s : bytes) (a b : nat) :
  (length (slice s a b) <= b - a)%nat.
Proof. unfold slice. rewrite length_take. lia. Qed.

(** *** The inner loop: the search for the end of a scan *)

Lemma sos_search_done (fuel : nat) (img : bytes) (j : nat) :
  (length img <= j)%nat -> sos_search fuel img j = Ok None.
Proof.
  intros H. destruct fuel; simpl;
    destruct (Nat.ltb_spec j (length img)); (lia || reflexivity).
Qed.

Lemma sos_search_S (fuel : nat) (img : bytes) (j : nat) :
  (j < length img)%nat ->
  sos_search (S fuel) img j =
    let* b2 := getitem img j in
    let* b3 := getitem img (j + 1) in
    if scan_end b2 b3 then Ok (Some j) else sos_search fuel img (j + 1).
Proof.
  intros H. simpl. destruct (Nat.ltb_spec j (length img)); [reflexivity | lia].
Qed.


Lemma scan_end_ff (b2 b3 : byte) : scan_end b2 b3 = true -> b2 = xff.
Proof.
  unfold scan_end. intros H.
  apply andb_prop in H as [H _]. apply andb_prop in H as [H _].
  apply ord_inj. apply Z.eqb_eq in H. rewrite H. reflexivity.
Qed.

(** What a successful search found: position [j] holds [FF] and a byte
    that ends the scan, and the bytes skipped are a clean payload. *)
Lemma sos_search_found (fuel : nat) :
  forall (img : bytes) (j0 j : nat),
    sos_search fuel img j0 = Ok (Some j) ->
    (j0 <= j)%nat /\
    (exists b3, img !! j = Some xff /\ img !! (j + 1)%nat = Some b3 /\
                scan_end xff b3 = true) /\
    sos_clean (slice img j0 j).
Proof.
  induction fuel as [|fuel IH]; intros img j0 j H.
  - simpl in H. destruct (negb _); discriminate.
  - destruct (Nat.lt_ge_cases j0 (length img)) as [Hj|Hj];
      [|rewrite sos_search_done in H by lia; discriminate].
    rewrite sos_search_S in H by done.
    inv_bind H as b2 Hb2. inv_bind H as b3 Hb3.
    apply getitem_Ok in Hb2, Hb3.
    destruct (scan_end b2 b3) eqn:Hend.
    + injection H as <-. pose proof (scan_end_ff _ _ Hend) as ->.
      split; [lia|]. split; [eauto|]. by rewrite slice_empty.
    + apply IH in H as (Hle & (c & Hff & Hc & Hendj) & Hclean).
      split; [lia|]. split; [eauto|].
      rewrite (slice_cons img j0 j b2) by (done || lia).
      replace (S j0) with (j0 + 1)%nat by lia.
      split; [|done].
      destruct (decide (j = j0 + 1)%nat) as [->|Hne].
      * rewrite slice_empty. simpl. congruence.
      * rewrite (slice_cons img (j0 + 1) j b3) by (done || lia). done.
Qed.

(** The search over a clean payload followed by [FF] and a byte that ends
    the scan stops exactly behind the payload. *)
Lemma sos_search_clean (p : bytes) :
  forall (pre rest : bytes) (c : byte) (fuel : nat),
    sos_clean p ->
    scan_end xff c = true ->
    (length p < fuel)%nat ->
    sos_search fuel (pre ++ p ++ xff :: c :: rest) (length pre) =
      Ok (Some (length pre + length p)%nat).
Proof.
  induction p as [|b2 p IH]; intros pre rest c fuel Hclean Hc Hfuel;
    (destruct fuel as [|fuel]; [simpl in Hfuel; lia|]).
  - rewrite sos_search_S by (rewrite length_app; simpl; lia).
    pose proof (lookup_app_plus pre (xff :: c :: rest) 0) as H0.
    pose proof (lookup_app_plus pre (xff :: c :: rest) 1) as H1.
    rewrite Nat.add_0_r in H0. simpl in *.
    apply getitem_Ok in H0, H1. rewrite H0. simpl. rewrite H1. simpl.
    rewrite Hc. by rewrite Nat.add_0_r.
  - destruct Hclean as [Hb2 Hclean]. cbn [app length] in *.
    rewrite sos_search_S by (rewrite length_app; simpl; lia).
    pose proof (lookup_app_plus pre (b2 :: p ++ xff :: c :: rest) 0) as H0.
    pose proof (lookup_app_plus pre (b2 :: p ++ xff :: c :: rest) 1) as H1.
    rewrite Nat.add_0_r in H0. simpl in H0, H1.
    apply getitem_Ok in H0. rewrite H0. simpl.
    assert (getitem (pre ++ b2 :: p ++ xff :: c :: rest) (length pre + 1)
            = Ok (hd xff p)) as ->.
    { apply getitem_Ok. rewrite H1. by destruct p. }
    simpl. rewrite Hb2.
    replace (pre ++ b2 :: p ++ xff :: c :: rest)
      with ((pre ++ [b2]) ++ p ++ xff :: c :: rest)
      by (by rewrite <- app_assoc).
    replace (length pre + 1)%nat with (length (pre ++ [b2]))
      by (rewrite length_app; reflexivity).
    rewrite IH by (done || lia).
    f_equal. f_equal. rewrite length_app. simpl. lia.
Qed.

(** *** The outer loop *)

(** Case analysis on one successful iteration: [H : scan_body .. = Ok ..]
    is split along the branches of the body. *)
Ltac scan_body_cases H :=
  unfold scan_body in H;
  let b := fresh "b" in let Hb := fresh "Hb" in
  let m := fresh "m" in let Hm := fresh "Hm" in
  let r := fresh "r" in let Hr := fresh "Hr" in
  let c1 := fresh "c1" in let Hc1 := fresh "Hc1" in
  let c2 := fresh "c2" in let Hc2 := fresh "Hc2" in
  let Hff := fresh "Hff" in let Hst := fresh "Hst" in
  let Hda := fresh "Hda" in let j := fresh "j" in
  inv_bind H as b Hb; cbv zeta in H;
  destruct (ord b =? 0xff) eqn:Hff;
  [ inv_bind H as m Hm;
    destruct (standalone m) eqn:Hst;
    [ | destruct (ord m =? 0xda) eqn:Hda;
        [ inv_bind H as r Hr; destruct r as [j|]
        | inv_bind H as c1 Hc1; inv_bind H as c2 Hc2 ] ]
  | ];
  injection H as <- <-.



Lemma scan_loop_done (fuel : nat) (img : bytes) (i : nat) (segs : list segment) :
  (length img <= i)%nat -> scan_loop fuel img i segs = Ok segs.
Proof.
  intros H. destruct fuel; simpl;
    destruct (Nat.ltb_spec i (length img)); (lia || reflexivity).
Qed.

Lemma scan_loop_S (fuel : nat) (img : bytes) (i : nat) (segs : list segment) :
  (i < length img)%nat ->
  scan_loop (S fuel) img i segs =
    let* st := scan_body img i segs in scan_loop fuel img st.1 st.2.
Proof.
  intros H. simpl. destruct (Nat.ltb_spec i (length img)); [reflexivity | lia].
Qed.



Lemma framed_marker_ord (m : byte) :
  standalone m = false -> (ord m =? 0xda) = false -> framed_marker (ord m).
Proof.
  unfold standalone, framed_marker. intros Hst Hda.
  pose proof (ord_range m).
  apply orb_false_elim in Hst as [H1 Hd]. apply Z.eqb_neq in H1, Hda.
  apply andb_false_iff in Hd. rewrite Z.leb_gt in Hd. rewrite Z.leb_gt in Hd.
  lia.
Qed.

Lemma scan_body_scanned (img : bytes) (i i' : nat) (segs segs' : list segment) :
  scan_body img i segs = Ok (i', segs') ->
  Forall scanned segs -> Forall scanned segs'.
Proof.
  intros H Hall. scan_body_cases H; try done.
  - apply sos_search_found in Hr as (_ & _ & Hclean).
    apply Forall_app. split; [done|]. apply Forall_singleton. by left.
  - apply Forall_app. split; [done|]. apply Forall_singleton. right.
    split; [by apply framed_marker_ord|]. simpl.
    pose proof (slice_length_le img (i + 1 + 3)
                  (i + 1 + 1 + Z.to_nat (ord c1 * 256 + ord c2))).
    pose proof (ord_range c1). pose proof (ord_range c2).
    unfold len. lia.
Qed.

Lemma scan_loop_scanned (fuel : nat) :
  forall (img : bytes) (i : nat) (segs segs' : list segment),
    scan_loop fuel img i segs = Ok segs' ->
    Forall scanned segs -> Forall scanned segs'.
Proof.
  induction fuel as [|fuel IH]; intros img i segs segs' H Hall.
  - simpl in H. destruct (negb _); [by injection H as <- | discriminate].
  - destruct (Nat.lt_ge_cases i (length img)) as [Hi|Hi].
    + rewrite scan_loop_S in H by done. inv_bind H as st Hst.
      destruct st as [i1 segs1]. eapply IH; [exact H|].
      eapply scan_body_scanned; eauto.
    + rewrite scan_loop_done in H by lia. by injection H as <-.
Qed.

Lemma scan_scanned (img : bytes) (segs : list segment) :
  scan img = Ok segs -> Forall scanned segs.
Proof. intros H. eapply scan_loop_scanned; [exact H | constructor]. Qed.

End Scanner.

(** ** jfif.py: rebuilding and scanning again *)

Section Rescan.
Import jfif.

Lemma length_word (ln : Z) (hi lo : byte) :
  0 <= ln ->
  chr (Z.shiftr ln 8) = Ok hi -> chr (Z.land ln 0xff) = Ok lo ->
  ord hi * 256 + ord lo = ln.
Proof.
  intros Hln Hhi Hlo. apply chr_Ok in Hhi, Hlo. rewrite Hhi, Hlo.
  rewrite Z.shiftr_div_pow2 by lia.
  change 0xff with (Z.ones 8). rewrite Z.land_ones by lia.
  change (2 ^ 8) with 256. pose proof (Z.div_mod ln 256). lia.
Qed.

(** The bytes one segment adds to the stream. *)
Lemma getBytes_step_shape (pre pre1 : bytes) (s : segment) :
  getBytes_step pre s = Ok pre1 ->
  (s.1 = SOS /\ pre1 = pre ++ [xff; xda] ++ s.2) \/
  (s.1 <> SOS /\ exists c hi lo,
      ord c = s.1 /\ ord hi * 256 + ord lo = len s.2 + 2 /\
      pre1 = pre ++ [xff; c; hi; lo] ++ s.2).
Proof.
  unfold getBytes_step. destruct (Z.eqb_spec s.1 SOS) as [E|E].
  - intros [= <-]. by left.
  - intros H. right. split; [done|].
    inv_bind H as c Hc. inv_bind H as hi Hhi. inv_bind H as lo Hlo.
    injection H as <-. exists c, hi, lo.
    split; [by apply chr_Ok|]. split.
    + apply length_word; [|done..]. pose proof (len_nonneg s.2). lia.
    + by rewrite <- !app_assoc.
Qed.

Lemma getBytes_step_scanned (pre : bytes) (s : segment) :
  scanned s -> exists pre1, getBytes_step pre s = Ok pre1.
Proof.
  intros [[Hm _]|[(Hr & _ & Hn) Hlen]]; unfold getBytes_step.
  - rewrite Hm. simpl. eauto.
  - destruct (Z.eqb_spec s.1 SOS) as [E|_]; [unfold SOS in E; lia|].
    pose proof (len_nonneg s.2) as H0.
    destruct (chr_in_range s.1) as [c ->]; [lia|]. simpl.
    destruct (chr_in_range (Z.shiftr (len s.2 + 2) 8)) as [hi ->].
    { rewrite Z.shiftr_div_pow2 by lia. change (2 ^ 8) with 256.
      split; [apply Z.div_pos; lia | apply Z.div_lt_upper_bound; lia]. }
    simpl.
    destruct (chr_in_range (Z.land (len s.2 + 2) 0xff)) as [lo ->].
    { change 0xff with (Z.ones 8). rewrite Z.land_ones by lia.
      apply Z.mod_pos_bound. lia. }
    simpl. eauto.
Qed.

(** getBytes() returns on every list of segments the scanner can emit. *)
Lemma getBytes_loop_scanned (segs : list segment) :
  forall pre, Forall scanned segs -> exists img, getBytes_loop segs pre = Ok img.
Proof.
  induction segs as [|s segs IH]; intros pre Hall; simpl; [eauto|].
  apply Forall_cons in Hall as [Hs Hall].
  destruct (getBytes_step_scanned pre s Hs) as [pre1 ->]. simpl. by apply IH.
Qed.

Lemma getBytes_loop_prefix (segs : list segment) :
  forall pre img, getBytes_loop segs pre = Ok img -> exists tail, img = pre ++ tail.
Proof.
  induction segs as [|s segs IH]; intros pre img H; simpl in H.
  - injection H as <-. exists []. by rewrite app_nil_r.
  - inv_bind H as pre1 Hs. apply IH in H as [tail ->].
    apply getBytes_step_shape in Hs as [[_ ->]|(_ & c & hi & lo & _ & _ & ->)];
      rewrite <- app_assoc; eauto.
Qed.

(** Behind the bytes built so far the stream goes on with [FF] and the
    next marker. *)
Lemma getBytes_loop_head (segs : list segment) (pre img : bytes) :
  getBytes_loop segs pre = Ok img ->
  exists c rest,
    img ++ [xff; xd9] = pre ++ xff :: c :: rest /\ ord c = next_marker segs.
Proof.
  destruct segs as [|s segs]; simpl; intros H.
  - injection H as <-. by exists xd9, [].
  - inv_bind H as pre1 Hs. apply getBytes_loop_prefix in H as [tail ->].
    apply getBytes_step_shape in Hs
      as [[Hm ->]|(_ & c & hi & lo & Hc & _ & ->)].
    + exists xda, (s.2 ++ tail ++ [xff; xd9]). split; [|by rewrite Hm].
      by rewrite <- !app_assoc.
    + exists c, (hi :: lo :: s.2 ++ tail ++ [xff; xd9]). split; [|done].
      by rewrite <- !app_assoc.
Qed.

(** The marker after an SOS payload ends the scan, unless it is 0. *)
Lemma scan_end_next_marker (s : segment) (segs : list segment) (c : byte) :
  s.1 = SOS -> sos_then_zero (s :: segs) = false -> Forall scanned segs ->
  ord c = next_marker segs -> scan_end xff c = true.
Proof.
  intros Hs Hz Hall Hc. unfold scan_end. rewrite Hc.
  destruct segs as [|t segs]; [reflexivity|]. simpl in *.
  apply orb_false_elim in Hz as [Hz _]. rewrite Hs in Hz. simpl in Hz.
  apply Z.eqb_neq in Hz.
  apply Forall_cons in Hall as [Ht _].
  assert (negb (t.1 =? 0) = true) as -> by (apply negb_true_iff; lia).
  simpl. apply negb_true_iff, andb_false_iff. rewrite !Z.leb_gt.
  destruct Ht as [[-> _]|[(_ & _ & Hn) _]]; lia.
Qed.

Lemma sos_then_zero_tail (s : segment) (segs : list segment) :
  sos_then_zero (s :: segs) = false -> sos_then_zero segs = false.
Proof.
  simpl. destruct segs as [|t segs]; [done|].
  intros H. by apply orb_false_elim in H as [_ H].
Qed.

Lemma getitem_app_plus (pre l : bytes) (k : nat) :
  getitem (pre ++ l) (length pre + k) = getitem l k.
Proof. unfold getitem. by rewrite lookup_app_plus. Qed.

Lemma getitem_app_0 (pre l : bytes) :
  getitem (pre ++ l) (length pre) = getitem l 0.
Proof. rewrite <- (getitem_app_plus pre l 0). by rewrite Nat.add_0_r. Qed.

(** One iteration over the end-of-image marker. *)
Lemma scan_body_eoi (pre : bytes) (acc : list segment) :
  scan_body (pre ++ [xff; xd9]) (length pre) acc
  = Ok ((length pre + 1 + 1)%nat, acc).
Proof.
  unfold scan_body. rewrite getitem_app_0. simpl.
  rewrite getitem_app_plus. reflexivity.
Qed.

(** One iteration over a rebuilt length-prefixed segment. *)
Lemma scan_body_framed (pre p rest : bytes) (c hi lo : byte)
    (acc : list segment) :
  standalone c = false -> (ord c =? 0xda) = false ->
  ord hi * 256 + ord lo = len p + 2 ->
  scan_body (pre ++ [xff; c; hi; lo] ++ p ++ rest) (length pre) acc
  = Ok (length (pre ++ [xff; c; hi; lo] ++ p), acc ++ [(ord c, p)]).
Proof.
  intros Hst Hda Hln. unfold scan_body.
  rewrite getitem_app_0. simpl.
  rewrite <- !Nat.add_assoc. rewrite !getitem_app_plus. simpl.
  rewrite Hst, Hda, Hln.
  rewrite (slice_app_eq (pre ++ [xff; c; hi; lo]) p rest).
  - do 2 f_equal. rewrite !length_app. unfold len. simpl. lia.
  - by rewrite <- app_assoc.
  - rewrite length_app. simpl. lia.
  - rewrite length_app. unfold len. simpl. lia.
Qed.

(** One iteration over a rebuilt SOS segment that is followed by a marker
    ending the scan. *)
Lemma scan_body_sos (pre p rest : bytes) (c : byte) (acc : list segment) :
  sos_clean p -> scan_end xff c = true ->
  scan_body (pre ++ [xff; xda] ++ p ++ xff :: c :: rest) (length pre) acc
  = Ok (length (pre ++ [xff; xda] ++ p), acc ++ [(0xda, p)]).
Proof.
  intros Hclean Hc. unfold scan_body.
  rewrite getitem_app_0. simpl.
  rewrite getitem_app_plus. simpl.
  replace (pre ++ xff :: xda :: p ++ xff :: c :: rest)
    with ((pre ++ [xff; xda]) ++ p ++ xff :: c :: rest)
    by (by rewrite <- app_assoc).
  replace (length pre + 1 + 1)%nat with (length (pre ++ [xff; xda]))
    by (rewrite length_app; simpl; lia).
  rewrite sos_search_clean by (done || rewrite !length_app; simpl; lia).
  simpl. rewrite slice_app_exact. f_equal. f_equal.
  rewrite !length_app. simpl. lia.
Qed.

(** Scanning the rebuilt stream from behind [pre], the bytes built before
    the segments [segs], appends exactly [segs]. *)
Lemma rescan (segs : list segment) :
  forall (pre img : bytes) (acc : list segment) (fuel : nat),
    Forall scanned segs ->
    sos_then_zero segs = false ->
    getBytes_loop segs pre = Ok img ->
    (length img - length pre < fuel)%nat ->
    scan_loop fuel (img ++ [xff; xd9]) (length pre) acc = Ok (acc ++ segs).
Proof.
  induction segs as [|s segs IH]; intros pre img acc fuel Hall Hz Hb Hfuel;
    (destruct fuel as [|fuel]; [lia|]).
  - simpl in Hb. injection Hb as <-.
    rewrite scan_loop_S by (rewrite length_app; simpl; lia).
    rewrite scan_body_eoi. simpl.
    rewrite scan_loop_done by (rewrite length_app; simpl; lia).
    by rewrite app_nil_r.
  - simpl in Hb. inv_bind Hb as pre1 Hs.
    apply Forall_cons in Hall as [Hsc Hall].
    pose proof (sos_then_zero_tail _ _ Hz) as Hz'.
    destruct (getBytes_loop_prefix _ _ _ Hb) as [tail Himg].
    destruct (getBytes_loop_head _ _ _ Hb) as (c' & rest & HB & Hc').
    assert (length pre + 2 <= length pre1)%nat as Hlen.
    { apply getBytes_step_shape in Hs
        as [[_ ->]|(_ & c & hi & lo & _ & _ & ->)];
        rewrite !length_app; simpl; lia. }
    assert (length pre1 <= length img)%nat as Hlen'.
    { rewrite Himg, length_app. lia. }
    rewrite scan_loop_S by (rewrite length_app; simpl; lia).
    assert (scan_body (img ++ [xff; xd9]) (length pre) acc
            = Ok (length pre1, acc ++ [s])) as ->.
    { rewrite HB. destruct s as [m p].
      apply getBytes_step_shape in Hs
        as [[Hm ->]|(Hm & c & hi & lo & Hc & Hln & ->)]; simpl in *.
      - rewrite Hm. rewrite <- !app_assoc.
        apply scan_body_sos.
        + destruct Hsc as [[_ H]|[(_ & _ & H) _]]; [done|].
          simpl in H. unfold SOS in Hm. lia.
        + eapply (scan_end_next_marker (m, p)); eauto.
      - rewrite <- Hc. rewrite <- !app_assoc.
        change (xff :: c :: hi :: lo :: p ++ xff :: c' :: rest)
          with ([xff; c; hi; lo] ++ p ++ xff :: c' :: rest).
        destruct Hsc as [[H _]|[(Hr & H1 & Hn) _]]; simpl in *;
          [by rewrite H in Hm|].
        apply scan_body_framed; [| |done].
        + unfold standalone. rewrite Hc.
          apply orb_false_intro; [lia|].
          apply andb_false_iff. rewrite !Z.leb_gt. lia.
        + rewrite Hc. lia. }
    simpl. rewrite IH by (done || lia). by rewrite <- app_assoc.
Qed.

End Rescan.

(** ** jfif.py: the claims about scanning *)

Section ScanClaims.
Import jfif.

(** The ambiguity the round trip excludes: FF 00 is byte stuffing inside
    a scan and a length-prefixed segment of marker 0 outside.  A buffer
    with such bytes behind the end-of-image marker scans to two segments,
    and the stream rebuilt from them to a single, longer SOS segment. *)
Lemma rebuild_rescan_differs :
  __init__ no_files
    (PyStr [xff; xd8; xff; xda; x41; xff; xd9; xff; x00; x00; x02])
  = Ok (mkJFIF [(0xda, [x41]); (0, [])]) /\
  getBytes (mkJFIF [(0xda, [x41]); (0, [])])
  = Ok [xff; xd8; xff; xda; x41; xff; x00; x00; x02; xff; xd9] /\
  __init__ no_files
    (PyStr [xff; xd8; xff; xda; x41; xff; x00; x00; x02; xff; xd9])
  = Ok (mkJFIF [(0xda, [x41; xff; x00; x00; x02])]) /\
  [(0xda, [x41; xff; x00; x00; x02])] <> [(0xda, [x41]); (0, [])].
Proof. repeat split; (reflexivity || discriminate). Qed.

(** C2: for every buffer that begins with FF D8 FF and scans without
    ambiguity, that is to a container in which no SOS segment is directly
    followed by a segment of marker 0 (FF 00, which a scan reads as byte
    stuffing), getBytes() of that container returns a stream from which
    the constructor builds the same container again. *)
Theorem rebuild_rescan (fs : bytes -> option bytes) (buf : bytes) (j1 : JFIF) :
  startswith buf [xff; xd8; xff] = true ->
  __init__ fs (PyStr buf) = Ok j1 ->
  sos_then_zero (_segments j1) = false ->
  exists img, getBytes j1 = Ok img /\ __init__ fs (PyStr img) = Ok j1.
Proof.
  intros Hsig Hinit Hz. unfold __init__ in Hinit. rewrite Hsig in Hinit.
  inv_bind Hinit as segs Hscan. injection Hinit as <-. simpl in Hz.
  pose proof (scan_scanned _ _ Hscan) as Hall.
  destruct (getBytes_loop_scanned segs [xff; xd8] Hall) as [img0 Hb].
  exists (img0 ++ [xff; xd9]). unfold getBytes. simpl. rewrite Hb. simpl.
  split; [done|].
  destruct (getBytes_loop_head _ _ _ Hb) as (c & rest & HB & _).
  assert (scan (img0 ++ [xff; xd9]) = Ok segs) as Hre.
  { unfold scan. rewrite length_app. simpl.
    replace (length img0 + 2)%nat with (S (S (length img0))) by lia.
    rewrite scan_loop_S by (rewrite length_app; simpl; lia).
    assert (scan_body (img0 ++ [xff; xd9]) 0 [] = Ok (length [xff; xd8], []))
      as -> by (by rewrite HB).
    simpl fst. simpl snd.
    apply (rescan segs [xff; xd8] img0 []); (done || simpl; lia). }
  assert (startswith (img0 ++ [xff; xd9]) [xff; xd8; xff] = true) as Hsig'
    by (by rewrite HB).
  unfold __init__. rewrite Hsig', Hre. reflexivity.
Qed.

(** C2 (witness): the theorem at a concrete input. *)
Lemma rebuild_rescan_witness :
  exists img,
    getBytes (mkJFIF [(0xe0, [x4a; x46]); (0xda, [x01; x02])]) = Ok img /\
    __init__ no_files (PyStr img)
    = Ok (mkJFIF [(0xe0, [x4a; x46]); (0xda, [x01; x02])]).
Proof.
  apply (rebuild_rescan no_files
           [xff; xd8; xff; xe0; x00; x04; x4a; x46; xff; xda; x01; x02;
            xff; xd9]); reflexivity.
Defined.

(** The search for the end of a scan raises IndexError when it starts
    inside the buffer and no byte pair up to the end of the buffer ends
    the scan. *)
Lemma sos_search_overrun (fuel : nat) :
  forall (img : bytes) (j : nat),
    (j < length img)%nat ->
    (length img - j <= fuel)%nat ->
    (forall k b2 b3, (j <= k)%nat -> img !! k = Some b2 ->
        img !! (k + 1)%nat = Some b3 -> scan_end b2 b3 = false) ->
    sos_search fuel img j = Raise IndexError.
Proof.
  induction fuel as [|fuel IH]; intros img j Hj Hfuel Hno; [lia|].
  rewrite sos_search_S by done.
  destruct (lookup_lt_is_Some_2 img j Hj) as [b2 Hb2].
  rewrite (proj2 (getitem_Ok _ _ _) Hb2). simpl.
  destruct (Nat.lt_ge_cases (j + 1) (length img)) as [Hj1|Hj1].
  - destruct (lookup_lt_is_Some_2 img (j + 1) Hj1) as [b3 Hb3].
    rewrite (proj2 (getitem_Ok _ _ _) Hb3). simpl.
    rewrite (Hno j b2 b3) by (done || lia).
    apply IH; [done | lia |].
    intros k c2 c3 Hk. apply Hno. lia.
  - by rewrite getitem_Raise.
Qed.

(** C3 (counterexample): a length-prefixed segment whose declared length
    runs past the end of the buffer is emitted with the bytes that are
    there; no error. *)
Lemma scan_truncated_payload :
  scan [xff; xd8; xff; xe0; x00; x10; x41] = Ok [(0xe0, [x41])].
Proof. reflexivity. Qed.

(** C3 (amended): with the loop at an [FF] followed by a marker that is not
    standalone, (1) an SOS marker with at least one byte behind it and no
    scan-ending byte pair up to the end of the buffer makes the scan raise
    IndexError; (2) a length-prefixed segment whose payload would end past
    the buffer does not fail: it is emitted with all the remaining bytes
    and the scan returns; (3) a length-prefixed segment whose two length
    bytes are not both in the buffer makes the scan raise IndexError. *)
Theorem scan_overrun (fuel : nat) (img : bytes) (i : nat)
    (segs : list segment) (m : byte) :
  img !! i = Some xff ->
  img !! (i + 1)%nat = Some m ->
  standalone m = false ->
  (ord m = 0xda ->
   (i + 2 < length img)%nat ->
   (forall k b2 b3, (i + 2 <= k)%nat -> img !! k = Some b2 ->
       img !! (k + 1)%nat = Some b3 -> scan_end b2 b3 = false) ->
   scan_loop (S fuel) img i segs = Raise IndexError) /\
  (ord m <> 0xda ->
   forall c1 c2,
     img !! (i + 2)%nat = Some c1 ->
     img !! (i + 3)%nat = Some c2 ->
     (length img < i + 2 + Z.to_nat (ord c1 * 256 + ord c2))%nat ->
     scan_loop (S fuel) img i segs
     = Ok (segs ++ [(ord m, drop (i + 4) img)])) /\
  (ord m <> 0xda ->
   (length img <= i + 3)%nat ->
   scan_loop (S fuel) img i segs = Raise IndexError).
Proof.
  intros Hff Hm Hst.
  assert (i < length img)%nat as Hi by (by apply lookup_lt_Some in Hff).
  rewrite scan_loop_S by done. unfold scan_body.
  rewrite (proj2 (getitem_Ok _ _ _) Hff). simpl.
  rewrite (proj2 (getitem_Ok _ _ _) Hm). simpl. rewrite Hst.
  split; [|split].
  - intros Hda Hlen Hno. rewrite Hda. simpl.
    rewrite sos_search_overrun; [done | lia | lia |].
    intros k b2 b3 Hk. apply Hno. lia.
  - intros Hda c1 c2 Hc1 Hc2 Hlen.
    apply Z.eqb_neq in Hda. rewrite Hda.
    replace (i + 1 + 1)%nat with (i + 2)%nat by lia.
    replace (i + 1 + 2)%nat with (i + 3)%nat by lia.
    rewrite (proj2 (getitem_Ok _ _ _) Hc1). simpl.
    rewrite (proj2 (getitem_Ok _ _ _) Hc2). simpl.
    rewrite scan_loop_done by lia. do 4 f_equal.
    unfold slice. replace (i + 1 + 3)%nat with (i + 4)%nat by lia.
    apply take_ge. rewrite length_drop. lia.
  - intros Hda Hlen. apply Z.eqb_neq in Hda. rewrite Hda.
    replace (i + 1 + 1)%nat with (i + 2)%nat by lia.
    replace (i + 1 + 2)%nat with (i + 3)%nat by lia.
    destruct (img !! (i + 2)%nat) as [c1|] eqn:Hc1.
    + rewrite (proj2 (getitem_Ok _ _ _) Hc1). simpl.
      by rewrite getitem_Raise.
    + unfold getitem at 1. by rewrite Hc1.
Qed.

(** C3 (witness): the theorem at a concrete input. *)
Lemma scan_overrun_witness :
  scan_loop 6 [xff; xd8; xff; xda; x41; x42] 2 [] = Raise IndexError /\
  scan_loop 7 [xff; xd8; xff; xe0; x00; x10; x41] 2 []
  = Ok [(0xe0, [x41])] /\
  scan_loop 5 [xff; xd8; xff; xe0; x00] 2 [] = Raise IndexError.
Proof.
  split; [|split].
  - apply (proj1 (scan_overrun 5 [xff; xd8; xff; xda; x41; x42] 2 [] xda
                    eq_refl eq_refl eq_refl)); [reflexivity | simpl; lia |].
    intros [|[|[|[|[|[|k]]]]]] b2 b3 Hk; simpl; try lia;
      intros [= <-]; try discriminate; intros [= <-]; reflexivity.
  - apply (proj1 (proj2 (scan_overrun 6 [xff; xd8; xff; xe0; x00; x10; x41]
                           2 [] xe0 eq_refl eq_refl eq_refl))
             ltac:(discriminate) x00 x10 eq_refl eq_refl).
    vm_compute. lia.
  - apply (proj2 (proj2 (scan_overrun 4 [xff; xd8; xff; xe0; x00] 2 [] xe0
                           eq_refl eq_refl eq_refl)));
      [discriminate | simpl; lia].
Defined.

End ScanClaims.

(** ** jfif.py: construction, dimensions, fingerprint *)

Section ContainerClaims.
Import jfif.


(** C5 (counterexample): without a start-of-frame segment getSize() returns
    None and raises nothing; with a start-of-frame payload of two bytes it
    raises IndexError. *)
Lemma getSize_none_and_short :
  getSize (mkJFIF []) = Ok None /\
  getSize (mkJFIF [(0xdb, [x00; x01; x02; x03; x04])]) = Ok None /\
  getSize (mkJFIF [(0xc0, [x08; x00])]) = Raise IndexError.
Proof. repeat split. Qed.

Lemma getSize_loop_skip (pre rest : list segment) :
  Forall (fun t => sof t.1 = false) pre ->
  getSize_loop (pre ++ rest) = getSize_loop rest.
Proof.
  induction 1 as [|t pre Ht _ IH]; simpl; [done|].
  unfold sof in Ht. by rewrite Ht.
Qed.

(** C5 (amended): when no segment has a marker in 0xC0-0xC3, getSize()
    returns None (no error is raised); otherwise, with [s] the first such
    segment, it returns (width, height) read big-endian from bytes 3-4 and
    bytes 1-2 of the payload of [s] when that payload has at least 5
    bytes, and raises IndexError when it is shorter; the SOF_0 payload
    01 00 64 00 C8 gives (200, 100). *)
Theorem getSize_first_sof (segs pre post : list segment) (s : segment) :
  (Forall (fun t => sof t.1 = false) segs ->
   getSize (mkJFIF segs) = Ok None) /\
  (Forall (fun t => sof t.1 = false) pre -> sof s.1 = true ->
   getSize (mkJFIF (pre ++ s :: post)) =
     match s.2 with
     | _ :: b1 :: b2 :: b3 :: b4 :: _ =>
         Ok (Some (ord b3 * 256 + ord b4, ord b1 * 256 + ord b2))
     | _ => Raise IndexError
     end) /\
  getSize (mkJFIF [(SOF_0, [x01; x00; x64; x00; xc8])]) = Ok (Some (200, 100)).
Proof.
  split; [|split; [|reflexivity]].
  - intros H. unfold getSize. simpl.
    rewrite <- (app_nil_r segs). by rewrite getSize_loop_skip.
  - intros Hpre Hs. unfold getSize. simpl.
    rewrite getSize_loop_skip by done. simpl.
    unfold sof in Hs. rewrite Hs.
    destruct s.2 as [|b0 [|b1 [|b2 [|b3 [|b4 p]]]]]; reflexivity.
Qed.

(** C5 (witness): the theorem at a concrete input. *)
Lemma getSize_first_sof_witness :
  getSize (mkJFIF [(0xe0, [x4a]); (0xdb, [])]) = Ok None /\
  getSize (mkJFIF [(0xe0, [x4a]); (0xc2, [x08; x01; x02; x03; x04; x03]);
                   (0xc0, [x08; x00; x10; x00; x20])])
  = Ok (Some (0x0304, 0x0102)).
Proof.
  split.
  - apply (proj1 (getSize_first_sof [(0xe0, [x4a]); (0xdb, [])] [] []
                    (0, []))).
    repeat constructor.
  - apply (proj1 (proj2 (getSize_first_sof [] [(0xe0, [x4a])]
                    [(0xc0, [x08; x00; x10; x00; x20])]
                    (0xc2, [x08; x01; x02; x03; x04; x03]))));
      [repeat constructor | reflexivity].
Defined.

(** The bytes fed to the hash object do not depend on what it was fed
    before. *)
Lemma getMD5_loop_app (segs : list segment) :
  forall h : bytes,
    getMD5_loop segs h = let* x := getMD5_loop segs [] in Ok (h ++ x).
Proof.
  induction segs as [|s segs IH]; intros h; simpl.
  - by rewrite app_nil_r.
  - destruct (s.1 =? COM); [apply IH|].
    destruct ((APP_0 <=? s.1) && (s.1 <=? APP_15)); [apply IH|].
    destruct (chr s.1) as [c| |]; simpl; [|done..].
    rewrite IH. rewrite (IH (c :: s.2)).
    destruct (getMD5_loop segs []); simpl; [|done..].
    by rewrite <- !app_assoc.
Qed.

Lemma getMD5_loop_metadata (segs1 segs2 : list segment) :
  same_but_metadata segs1 segs2 ->
  forall h, getMD5_loop segs1 h = getMD5_loop segs2 h.
Proof.
  induction 1 as [|s t segs1 segs2 [Hm Hp] _ IH]; intros h; simpl; [done|].
  rewrite <- Hm. unfold metadata in Hp.
  destruct (s.1 =? COM); [apply IH|].
  destruct ((APP_0 <=? s.1) && (s.1 <=? APP_15)); [apply IH|].
  destruct Hp as [Hp|Hp]; [discriminate|]. rewrite Hp.
  destruct (chr s.1); simpl; [apply IH | done..].
Qed.

(** The bytes fed to the digest around a segment that is not skipped. *)
Lemma getMD5_loop_split (pre post : list segment) (m : Z) :
  metadata m = false ->
  forall (q h0 : bytes),
    getMD5_loop (pre ++ (m, q) :: post) h0 =
      let* a := getMD5_loop pre h0 in
      let* c := chr m in
      let* z := getMD5_loop post [] in
      Ok (a ++ [c] ++ q ++ z).
Proof.
  intros Hm q. induction pre as [|s pre IH]; intros h0; simpl.
  - unfold metadata in Hm. apply orb_false_elim in Hm as [-> ->].
    destruct (chr m) as [c| |]; simpl; [|done..].
    rewrite getMD5_loop_app.
    destruct (getMD5_loop post []); simpl; [|done..].
    by rewrite <- !app_assoc.
  - destruct (s.1 =? COM); [apply IH|].
    destruct ((APP_0 <=? s.1) && (s.1 <=? APP_15)); [apply IH|].
    destruct (chr s.1); simpl; [apply IH | done..].
Qed.

(** C9 (counterexample): two containers that differ only in the payload of
    one segment, of marker D1, and have the same MD5 fingerprint. *)
Lemma getMD5_collision :
  getMD5 (mkJFIF [(0xd1, collision_payload_1)])
  = getMD5 (mkJFIF [(0xd1, collision_payload_2)]) /\
  collision_payload_1 <> collision_payload_2 /\
  metadata 0xd1 = false.
Proof.
  split; [vm_compute; reflexivity|]. split; [|reflexivity].
  intros H. apply (f_equal (fun l => l !! 18%nat)) in H. discriminate.
Qed.

(** The digest is fed markers and payloads without their lengths: two
    containers that differ in the payloads of two segments can feed it the
    same bytes. *)
Lemma getMD5_unframed :
  getMD5_loop [(0xdb, [x01; xdb]); (0xdb, [])] []
  = getMD5_loop [(0xdb, [x01]); (0xdb, [xdb])] [].
Proof. reflexivity. Qed.

(** C9 (amended): two containers whose segment lists differ only in the
    payloads of Comment (0xFE) or application (0xE0-0xEF) segments have
    the same getMD5() result; for two containers that differ only in the
    payload of one other segment, the byte strings fed to the digest
    differ. *)
Theorem getMD5_ignores_metadata (segs1 segs2 pre post : list segment)
    (m : Z) (p p' : bytes) :
  (same_but_metadata segs1 segs2 ->
   getMD5 (mkJFIF segs1) = getMD5 (mkJFIF segs2)) /\
  (metadata m = false -> p <> p' ->
   forall h h',
     getMD5_loop (pre ++ (m, p) :: post) [] = Ok h ->
     getMD5_loop (pre ++ (m, p') :: post) [] = Ok h' ->
     h <> h').
Proof.
  split.
  - intros H. unfold getMD5. simpl. by rewrite (getMD5_loop_metadata _ _ H).
  - intros Hm Hp h h' H1 H2.
    pose proof (getMD5_loop_split pre post m Hm) as Hshape.
    rewrite Hshape in H1, H2.
    inv_bind H1 as a Ha. inv_bind H1 as c Hc. inv_bind H1 as z Hz.
    rewrite Ha, Hc, Hz in H2. simpl in H2.
    injection H1 as <-. injection H2 as <-.
    intros H. apply app_inv_head in H. injection H as H.
    by apply app_inv_tail in H.
Qed.

(** C9 (witness): the theorem at a concrete input. *)
Lemma getMD5_ignores_metadata_witness :
  getMD5 (mkJFIF [(0xe1, [x45; x78]); (0xdb, [x01]); (0xfe, [x68; x69])])
  = getMD5 (mkJFIF [(0xe1, []); (0xdb, [x01]); (0xfe, [x79; x6f; x75])]) /\
  [xdb; x01; xc4; x05] <> [xdb; x02; xc4; x05].
Proof.
  pose proof (getMD5_ignores_metadata
    [(0xe1, [x45; x78]); (0xdb, [x01]); (0xfe, [x68; x69])]
    [(0xe1, []); (0xdb, [x01]); (0xfe, [x79; x6f; x75])]
    [(0xfe, [x68])] [(0xc4, [x05])] 0xdb [x01] [x02]) as [Ha Hb].
  split.
  - apply Ha. unfold same_but_metadata.
    repeat (constructor;
            [split; [reflexivity
                    | (left; reflexivity) || (right; reflexivity)] |]).
    constructor.
  - apply Hb; (reflexivity || discriminate).
Defined.

End ContainerClaims.

(** ** exif.py *)

Section ExifClaims.
Import exif.
Variable native : byteorder.

Lemma le_uint_nonneg (bs : bytes) : 0 <= le_uint bs.
Proof.
  induction bs as [|b bs IH]; simpl; [lia|]. pose proof (ord_range b). lia.
Qed.

Lemma uint_nonneg (bs : bytes) : 0 <= uint native bs.
Proof. unfold uint. destruct native; apply le_uint_nonneg. Qed.

Lemma unpack_II_nonneg (s : bytes) (num dem : Z) :
  unpack_II native s = Ok (num, dem) -> 0 <= num /\ 0 <= dem.
Proof.
  unfold unpack_II, sized. destruct (length s =? 8)%nat; [|discriminate].
  simpl. intros [= <- <-]. split; apply uint_nonneg.
Qed.

Lemma unpack_hhii_length (s : bytes) (hdr : Z * Z * Z * Z) :
  unpack_hhii native s = Ok hdr -> length s = 12%nat.
Proof.
  unfold unpack_hhii, sized.
  destruct (Nat.eqb_spec (length s) 12); [done | discriminate].
Qed.

(** C8: every entry decoded with type 5 (Rational) has as its value the
    quotient [num / dem] of the two unsigned 4-byte integers unpacked at
    its value offset, rounded towards zero; numerator 1 and denominator 2
    decode to 0. *)
Theorem rational_value (data : bytes) (offset : Z) (e : IFDEntry) :
  (_decode_tiff_value native data offset = Ok e ->
   typ e = Some 5 ->
   exists tag num_vals val_off num dem,
     unpack_hhii native (py_slice data offset (offset + 12))
     = Ok (tag, 5, num_vals, val_off) /\
     unpack_II native (py_slice data val_off (val_off + 8)) = Ok (num, dem) /\
     value e = VInt (num / dem) /\
     num / dem = num ÷ dem) /\
  _decode_tiff_value LittleEndian (rational_entry x01 x02) 0
  = Ok {| typ := Some 5; id := 282; value := VInt 0;
          name := Some "XResolution"%string |}.
Proof.
  split; [|reflexivity].
  unfold _decode_tiff_value. intros H Hty.
  destruct (negb _); [discriminate|].
  inv_bind H as hdr Hhdr. destruct hdr as [[[tag ty] num_vals] val_off].
  inv_bind H as val Hval. injection H as <-. simpl in Hty.
  injection Hty as ->. simpl in Hval.
  inv_bind Hval as nd Hnd. destruct nd as [num dem].
  inv_bind Hval as q Hq. injection Hval as <-.
  unfold py_div in Hq. simpl in Hq.
  destruct (Z.eqb_spec dem 0) as [|Hdem]; [discriminate|].
  injection Hq as <-.
  exists tag, num_vals, val_off, num, dem.
  repeat split; try done.
  apply unpack_II_nonneg in Hnd as [Hnum Hden].
  symmetry. apply Z.quot_div_nonneg; lia.
Qed.

(** C10: an entry of type 5 whose denominator, unpacked at its value
    offset, is 0 makes [_decode_tiff_value] raise ZeroDivisionError: the
    division is not guarded. *)
Theorem rational_zero_denominator (data : bytes) (offset : Z)
    (tag num_vals val_off num : Z) :
  unpack_hhii native (py_slice data offset (offset + 12))
  = Ok (tag, 5, num_vals, val_off) ->
  unpack_II native (py_slice data val_off (val_off + 8)) = Ok (num, 0) ->
  _decode_tiff_value native data offset = Raise ZeroDivisionError.
Proof.
  intros Hhdr Hnd. unfold _decode_tiff_value.
  rewrite (unpack_hhii_length _ _ Hhdr). simpl.
  rewrite Hhdr. simpl. rewrite Hnd. reflexivity.
Qed.

(** The [for] loop moves the offset 12 bytes per entry. *)
Lemma decode_entries_offset (n : nat) :
  forall (data : bytes) (offset : Z) (self self' : Exif) (offset' : Z),
    decode_entries native n data offset self = Ok (self', offset') ->
    offset' = offset + 12 * Z.of_nat n.
Proof.
  induction n as [|n IH]; intros data offset self self' offset' H.
  - injection H as <- <-. lia.
  - cbn [decode_entries] in H. inv_bind H as tag Htag.
    inv_bind H as self1 Hset. apply IH in H. lia.
Qed.

(** One turn of the [while] loop: after a directory at [d] with [n]
    entries the next offset is read at [d + 2 + 12 n]. *)
Lemma directories_step (fuel : nat) (data : bytes) (p d n : Z)
    (self self' : Exif) (offset' : Z) :
  unpack_i native (py_slice data p (p + 4)) = Ok d ->
  d <> 0 ->
  unpack_h native (py_slice data d (d + 2)) = Ok n ->
  decode_entries native (Z.to_nat n) data (d + 2) self = Ok (self', offset') ->
  directories native (S fuel) data p self
  = directories native fuel data (d + 2 + 12 * Z.max 0 n) self'.
Proof.
  intros Hp Hd Hn Hdec.
  pose proof (decode_entries_offset _ _ _ _ _ _ Hdec) as Ho.
  assert (offset' = d + 2 + 12 * Z.max 0 n) as -> by lia.
  cbn [directories]. rewrite Hp. simpl.
  destruct (Z.eqb_spec d 0) as [|_]; [done|].
  rewrite Hn. simpl. rewrite Hdec. reflexivity.
Qed.

Lemma directories_inv (fuel : nat) (data : bytes) (p d : Z) (self t : Exif) :
  directories native fuel data p self = Ok t ->
  unpack_i native (py_slice data p (p + 4)) = Ok d ->
  d <> 0 ->
  exists fuel' n self',
    fuel = S fuel' /\
    unpack_h native (py_slice data d (d + 2)) = Ok n /\
    decode_entries native (Z.to_nat n) data (d + 2) self
    = Ok (self', d + 2 + 12 * Z.max 0 n) /\
    directories native fuel' data (d + 2 + 12 * Z.max 0 n) self' = Ok t.
Proof.
  intros H Hp Hd. destruct fuel as [|fuel]; [discriminate|].
  cbn [directories] in H. rewrite Hp in H. simpl in H.
  destruct (Z.eqb_spec d 0) as [|_]; [done|].
  inv_bind H as n Hn. inv_bind H as so Hdec. destruct so as [self' o'].
  pose proof (decode_entries_offset _ _ _ _ _ _ Hdec) as Ho. simpl in H.
  assert (o' = d + 2 + 12 * Z.max 0 n) as -> by lia.
  by exists fuel, n, self'.
Qed.

Lemma setitem_entries (self self' : Exif) (k : Z) (e : IFDEntry) :
  __setitem__ self (KInt k) (ItemEntry e) = Ok self' ->
  entries self' = <[KInt k := e]> (entries self) /\ dirty self' = 1.
Proof. by intros [= <-]. Qed.

(** Decoding entries only adds keys to the table. *)
Lemma decode_entries_mono (n : nat) :
  forall (data : bytes) (offset : Z) (self self' : Exif) (offset' : Z) (k : key),
    decode_entries native n data offset self = Ok (self', offset') ->
    is_Some (entries self !! k) -> is_Some (entries self' !! k).
Proof.
  induction n as [|n IH]; intros data offset self self' offset' k H Hk.
  - by injection H as <- <-.
  - cbn [decode_entries] in H. inv_bind H as tag Htag.
    inv_bind H as self1 Hset. apply setitem_entries in Hset as [Hset _].
    eapply IH; [exact H|]. rewrite Hset.
    destruct (decide (KInt (id tag) = k)) as [<-|Hne].
    + rewrite lookup_insert_eq. eauto.
    + by rewrite lookup_insert_ne.
Qed.

(** Each of the [n] entries decoded is in the table afterwards. *)
Lemma decode_entries_inserts (n : nat) :
  forall (data : bytes) (offset : Z) (self self' : Exif) (offset' : Z)
         (i : nat) (e : IFDEntry),
    decode_entries native n data offset self = Ok (self', offset') ->
    (i < n)%nat ->
    _decode_tiff_value native data (offset + 12 * Z.of_nat i) = Ok e ->
    is_Some (entries self' !! KInt (id e)).
Proof.
  induction n as [|n IH]; intros data offset self self' offset' i e H Hi He;
    [lia|].
  cbn [decode_entries] in H. inv_bind H as tag Htag.
  inv_bind H as self1 Hset. apply setitem_entries in Hset as [Hset _].
  destruct i as [|i].
  - replace (offset + 12 * Z.of_nat 0) with offset in He by lia.
    assert (tag = e) as -> by congruence.
    eapply decode_entries_mono; [exact H|].
    rewrite Hset, lookup_insert_eq. eauto.
  - eapply (IH _ _ _ _ _ i); [exact H | lia |].
    replace (offset + 12 + 12 * Z.of_nat i)
      with (offset + 12 * Z.of_nat (S i)) by lia.
    exact He.
Qed.

(** The loop over the directories only adds keys to the table. *)
Lemma directories_mono (fuel : nat) :
  forall (data : bytes) (p : Z) (self t : Exif) (k : key),
    directories native fuel data p self = Ok t ->
    is_Some (entries self !! k) -> is_Some (entries t !! k).
Proof.
  induction fuel as [|fuel IH]; intros data p self t k H Hk; [discriminate|].
  cbn [directories] in H. inv_bind H as d Hd.
  destruct (d =? 0); [by injection H as <-|].
  inv_bind H as n Hn. inv_bind H as so Hdec. destruct so as [self' o'].
  eapply IH; [exact H|]. eapply decode_entries_mono; eauto.
Qed.

Lemma directories_chain (data : bytes) (p d : Z) :
  chain_dir native data p d ->
  forall (fuel : nat) (self t : Exif) (n i : Z) (e : IFDEntry),
    directories native fuel data p self = Ok t ->
    unpack_h native (py_slice data d (d + 2)) = Ok n ->
    0 <= i < n ->
    _decode_tiff_value native data (d + 2 + 12 * i) = Ok e ->
    is_Some (entries t !! KInt (id e)).
Proof.
  induction 1 as [p d Hp Hd|p d n0 d' Hp Hd Hn0 _ IH];
    intros fuel self t n i e H Hn Hi He.
  - destruct (directories_inv _ _ _ _ _ _ H Hp Hd)
      as (fuel' & n' & self' & -> & Hn' & Hdec & Hrest).
    assert (n' = n) as -> by congruence.
    eapply directories_mono; [exact Hrest|].
    eapply (decode_entries_inserts _ _ _ _ _ _ (Z.to_nat i)); [exact Hdec|lia|].
    by rewrite Z2Nat.id by lia.
  - destruct (directories_inv _ _ _ _ _ _ H Hp Hd)
      as (fuel' & n' & self' & -> & Hn' & Hdec & Hrest).
    assert (n' = n0) as -> by congruence.
    eapply IH; eauto.
Qed.

Lemma decode_entries_returns (n : nat) :
  forall (data : bytes) (offset : Z) (self : Exif),
    (forall i, (i < n)%nat ->
       exists e,
         _decode_tiff_value native data (offset + 12 * Z.of_nat i) = Ok e) ->
    exists self',
      decode_entries native n data offset self
      = Ok (self', offset + 12 * Z.of_nat n).
Proof.
  induction n as [|n IH]; intros data offset self Hdec.
  - exists self. simpl. do 2 f_equal. lia.
  - destruct (Hdec 0%nat) as [e He]; [lia|].
    replace (offset + 12 * Z.of_nat 0) with offset in He by lia.
    cbn [decode_entries]. rewrite He. simpl.
    destruct (IH data (offset + 12)
                {| entries := <[KInt (id e) := e]> (entries self);
                   dirty := 1 |}) as [self' Hs].
    { intros i Hi. destruct (Hdec (S i)) as [e' He']; [lia|]. exists e'.
      rewrite <- He'. f_equal. lia. }
    exists self'. rewrite Hs. do 2 f_equal. lia.
Qed.

(** A chain that ends with the offset 0 makes the loop return. *)
Lemma directories_returns (data : bytes) (p : Z) (k : nat) :
  chain_ends native data p k ->
  forall (fuel : nat) (self : Exif),
    (k < fuel)%nat -> exists t, directories native fuel data p self = Ok t.
Proof.
  induction 1 as [p Hp|p d n k Hp Hd Hn Hdec _ IH]; intros fuel self Hfuel;
    (destruct fuel as [|fuel]; [lia|]).
  - exists self. cbn [directories]. by rewrite Hp.
  - destruct (decode_entries_returns (Z.to_nat n) data (d + 2) self)
      as [self' Hs].
    { intros i Hi. apply Hdec. lia. }
    replace (d + 2 + 12 * Z.of_nat (Z.to_nat n))
      with (d + 2 + 12 * Z.max 0 n) in Hs by lia.
    rewrite (directories_step fuel data p d n self self' _ Hp Hd Hn Hs).
    apply IH. lia.
Qed.

(** Decoding the entries of a directory keeps a table made of entries
    with a property [Q], each under its own id, when the decoded entries
    have [Q]. *)
Lemma decode_entries_from (Q : IFDEntry -> Prop) (n : nat) :
  forall (data : bytes) (offset : Z) (self self' : Exif) (offset' : Z),
    decode_entries native n data offset self = Ok (self', offset') ->
    (forall i e, (i < n)%nat ->
       _decode_tiff_value native data (offset + 12 * Z.of_nat i) = Ok e ->
       Q e) ->
    (forall k e, entries self !! k = Some e -> k = KInt (id e) /\ Q e) ->
    forall k e, entries self' !! k = Some e -> k = KInt (id e) /\ Q e.
Proof.
  induction n as [|n IH]; intros data offset self self' offset' H HQ Hinv.
  - by injection H as <- <-.
  - cbn [decode_entries] in H. inv_bind H as tag Htag.
    inv_bind H as self1 Hset. injection Hset as <-.
    eapply IH; [exact H | |].
    + intros i e Hi He. apply (HQ (S i) e); [lia|].
      rewrite <- He. f_equal. lia.
    + simpl. intros k e Hk.
      destruct (decide (KInt (id tag) = k)) as [<-|Hne].
      * rewrite lookup_insert_eq in Hk. injection Hk as <-.
        split; [done|]. apply (HQ 0%nat); [lia|].
        rewrite <- Htag. f_equal. lia.
      * rewrite lookup_insert_ne in Hk by done. by apply Hinv.
Qed.

(** The loop keeps a table made of entries of the chain, each under its
    own id. *)
Lemma directories_from (fuel : nat) :
  forall (data : bytes) (p : Z) (self t : Exif),
    directories native fuel data p self = Ok t ->
    (forall d, chain_dir native data p d -> chain_dir native data 4 d) ->
    (forall k e, entries self !! k = Some e ->
                 k = KInt (id e) /\ chain_entry native data e) ->
    forall k e, entries t !! k = Some e ->
                k = KInt (id e) /\ chain_entry native data e.
Proof.
  induction fuel as [|fuel IH]; intros data p self t H Hchain Hinv;
    [discriminate|].
  cbn [directories] in H. inv_bind H as d Hp.
  destruct (Z.eqb_spec d 0) as [|Hd]; [by injection H as <-|].
  inv_bind H as n Hn. inv_bind H as so Hdec. destruct so as [self' o'].
  pose proof (decode_entries_offset _ _ _ _ _ _ Hdec) as Ho. simpl in H.
  assert (o' = d + 2 + 12 * Z.max 0 n) as -> by lia.
  eapply IH; [exact H | |].
  - intros d' Hd'. apply Hchain. by eapply chain_next.
  - eapply decode_entries_from; [exact Hdec | | exact Hinv].
    intros i e Hi He. exists d, n, (Z.of_nat i).
    split; [apply Hchain; by apply chain_first|].
    split; [done|]. split; [lia | done].
Qed.

(** C6 (amended): the decoder reads the offset of the first directory at
    the fixed offset 4 and the offset of each next directory behind the
    last entry of the directory before it.  For a block with the
    signature and the magic number whose chain of directories ends with
    the offset 0, the constructor returns, and the table it returns is
    made of the entries of all the directories of the chain: each entry
    of the chain is in the table under its tag id, unless another entry
    of the chain with that id is, and the table holds nothing else. *)
Theorem chain_entries_decoded (fuel k : nat) (data : bytes) :
  data !! 0%nat = Some x49 ->
  data !! 1%nat = Some x49 ->
  unpack_xxh native (py_slice data 0 4) = Ok 42 ->
  chain_ends native data 4 k ->
  (k < fuel)%nat ->
  exists t,
    __init__ native fuel (Some data) = Ok t /\
    (forall e, chain_entry native data e ->
       exists e', entries t !! KInt (id e) = Some e' /\ id e' = id e /\
                  chain_entry native data e') /\
    (forall key e', entries t !! key = Some e' ->
       key = KInt (id e') /\ chain_entry native data e').
Proof.
  intros H0 H1 Hmagic Hends Hfuel.
  destruct (directories_returns data 4 k Hends fuel
              {| entries := ∅; dirty := 0 |} Hfuel) as [t Ht].
  assert (forall key e', entries t !! key = Some e' ->
            key = KInt (id e') /\ chain_entry native data e') as Hinv.
  { eapply directories_from; [exact Ht | done |].
    intros key e'. simpl. by rewrite lookup_empty. }
  exists t. split; [|split; [|exact Hinv]].
  - unfold __init__. destruct data as [|c data]; [discriminate|].
    rewrite (proj2 (getitem_Ok _ _ _) H0). simpl.
    rewrite (proj2 (getitem_Ok _ _ _) H1). simpl.
    rewrite Hmagic. simpl. exact Ht.
  - intros e (d & n & i & Hd & Hn & Hi & He).
    destruct (directories_chain data 4 d Hd fuel _ t n i e Ht Hn Hi He)
      as [e' He'].
    exists e'. destruct (Hinv _ _ He') as [Hk Hc].
    split; [done|]. split; [by injection Hk|done].
Qed.

(** *** The flag [dirty] *)

Lemma init_no_data (fuel : nat) :
  __init__ native fuel None = Ok {| entries := ∅; dirty := 0 |} /\
  __init__ native fuel (Some []) = Ok {| entries := ∅; dirty := 0 |}.
Proof. split; reflexivity. Qed.

Lemma setitem_dirty (self self' : Exif) (k : key) (item : pyitem) :
  __setitem__ self k item = Ok self' -> dirty self' = 1.
Proof. destruct item; [by intros [= <-] | discriminate]. Qed.

Lemma delitem_dirty (self self' : Exif) (k : key) :
  __delitem__ self k = Ok self' -> dirty self' = 1.
Proof.
  unfold __delitem__. destruct (entries self !! _normalize_key k);
    [by intros [= <-] | discriminate].
Qed.

Lemma decode_entries_dirty (n : nat) :
  forall (data : bytes) (offset : Z) (self self' : Exif) (offset' : Z),
    decode_entries native n data offset self = Ok (self', offset') ->
    self' = self \/ dirty self' = 1.
Proof.
  induction n as [|n IH]; intros data offset self self' offset' H.
  - injection H as <- <-. by left.
  - cbn [decode_entries] in H. inv_bind H as tag Htag.
    inv_bind H as self1 Hset. apply setitem_dirty in Hset.
    apply IH in H as [->|H]; by right.
Qed.

Lemma directories_dirty (fuel : nat) :
  forall (data : bytes) (p : Z) (self t : Exif),
    directories native fuel data p self = Ok t ->
    t = self \/ dirty t = 1.
Proof.
  induction fuel as [|fuel IH]; intros data p self t H; [discriminate|].
  cbn [directories] in H. inv_bind H as d Hd.
  destruct (d =? 0); [injection H as <-; by left|].
  inv_bind H as n Hn. inv_bind H as so Hdec. destruct so as [self' o'].
  apply decode_entries_dirty in Hdec. apply IH in H.
  destruct H as [->|H]; [|by right]. destruct Hdec as [->|Hdec]; eauto.
Qed.

(** A table that holds an entry when the constructor returns is dirty. *)
Lemma init_dirty (fuel : nat) (data : option bytes) (t : Exif) :
  __init__ native fuel data = Ok t -> entries t <> ∅ -> dirty t = 1.
Proof.
  intros H Hne. unfold __init__ in H.
  destruct data as [[|c data]|]; try (injection H as <-; done).
  inv_bind H as d0 Hd0. destruct (negb (ord d0 =? 73)); [discriminate|].
  inv_bind H as d1 Hd1. destruct (negb (ord d1 =? 73)); [discriminate|].
  inv_bind H as magic Hmagic. destruct (negb (magic =? 42)); [discriminate|].
  apply directories_dirty in H as [->|H]; done.
Qed.

End ExifClaims.

Section ExifExamples.
Import exif.

(** C8 (witness): the theorem at a concrete input. *)
Lemma rational_value_witness :
  exists tag num_vals val_off num dem,
    unpack_hhii LittleEndian (py_slice (rational_entry x07 x02) 0 (0 + 12))
    = Ok (tag, 5, num_vals, val_off) /\
    unpack_II LittleEndian
      (py_slice (rational_entry x07 x02) val_off (val_off + 8))
    = Ok (num, dem) /\
    VInt 3 = VInt (num / dem) /\
    num / dem = num ÷ dem.
Proof.
  apply (proj1 (rational_value LittleEndian (rational_entry x07 x02) 0
                  {| typ := Some 5; id := 282; value := VInt 3;
                     name := Some "XResolution"%string |}));
    reflexivity.
Defined.

(** On a cyclic chain the loop over the directories does not end. *)
Lemma directories_cyclic (fuel : nat) :
  forall (p : Z) (self : Exif),
    p = 4 \/ p = 10 ->
    directories LittleEndian fuel cyclic_directory p self = OutOfFuel.
Proof.
  induction fuel as [|fuel IH]; intros p self Hp; [reflexivity|].
  rewrite (directories_step LittleEndian fuel cyclic_directory p 8 0 self self 10).
  - apply IH. by right.
  - by destruct Hp as [-> | ->].
  - discriminate.
  - reflexivity.
  - reflexivity.
Qed.

(** C10 (witness): the theorem at a concrete input. *)
Lemma rational_zero_denominator_witness :
  _decode_tiff_value LittleEndian (rational_entry x01 x00) 0
  = Raise ZeroDivisionError.
Proof.
  apply (rational_zero_denominator LittleEndian (rational_entry x01 x00) 0
           282 1 12 1); reflexivity.
Defined.

(** C6 (counterexample): the table built from a block of two directories
    holds the entry of the second directory as well as that of the first. *)
Lemma second_directory_decoded :
  (let* t := __init__ LittleEndian 3 (Some two_directories) in
   Ok (entries t !! KInt 256, entries t !! KInt 257))
  = Ok (Some {| typ := Some 4; id := 256; value := VInt 7;
                name := Some "ImageWidth"%string |},
        Some {| typ := Some 4; id := 257; value := VInt 9;
                name := Some "ImageLength"%string |}).
Proof. vm_compute. reflexivity. Qed.

(** C6 (witness): the theorem at a concrete input. *)
Lemma chain_entries_decoded_witness :
  exists t,
    __init__ LittleEndian 3 (Some two_directories) = Ok t /\
    (forall e, chain_entry LittleEndian two_directories e ->
       exists e', entries t !! KInt (id e) = Some e' /\ id e' = id e /\
                  chain_entry LittleEndian two_directories e') /\
    (forall key e', entries t !! key = Some e' ->
       key = KInt (id e') /\ chain_entry LittleEndian two_directories e').
Proof.
  apply (chain_entries_decoded LittleEndian 3 2 two_directories);
    [reflexivity | reflexivity | reflexivity | | lia].
  apply (chain_ends_dir LittleEndian two_directories 4 8 1 1);
    [reflexivity | discriminate | reflexivity | |].
  { intros i Hi. assert (i = 0) as -> by lia. eexists. reflexivity. }
  apply (chain_ends_dir LittleEndian two_directories 22 26 1 0);
    [reflexivity | discriminate | reflexivity | |].
  { intros i Hi. assert (i = 0) as -> by lia. eexists. reflexivity. }
  apply chain_ends_zero. reflexivity.
Defined.

(** C7 (the construction from a block with an entry): [__init__] stores
    each decoded entry through [__setitem__], which sets the flag, so the
    new table is dirty. *)
Theorem dirty_after_construction :
  (let* t := __init__ LittleEndian 2 (Some one_directory) in Ok (dirty t))
  = Ok 1.
Proof. vm_compute. reflexivity. Qed.

End ExifExamples.

(** * Further properties of jfif.py *)

Section ScannerFacts.
Import jfif.

Lemma getitem_raises (s : bytes) (i : nat) (e : exn) :
  getitem s i = Raise e -> e = IndexError.
Proof. unfold getitem. destruct (s !! i); congruence. Qed.

Lemma bind_Raise {A B} (r : result A) (k : A -> result B) (e : exn) :
  bind r k = Raise e -> r = Raise e \/ exists a, r = Ok a /\ k a = Raise e.
Proof.
  destruct r as [a|e'|]; simpl; intros H.
  - right. by exists a.
  - left. by injection H as ->.
  - discriminate.
Qed.

Lemma sos_search_raises (fuel : nat) :
  forall (img : bytes) (j : nat) (e : exn),
    sos_search fuel img j = Raise e -> e = IndexError.
Proof.
  induction fuel as [|fuel IH]; intros img j e H.
  - simpl in H. destruct (negb _); discriminate.
  - destruct (Nat.lt_ge_cases j (length img)) as [Hj|Hj];
      [|rewrite sos_search_done in H by lia; discriminate].
    rewrite sos_search_S in H by done.
    apply bind_Raise in H as [H|(b2 & _ & H)]; [by apply getitem_raises in H|].
    apply bind_Raise in H as [H|(b3 & _ & H)]; [by apply getitem_raises in H|].
    destruct (scan_end b2 b3); [discriminate|]. by apply IH in H.
Qed.

Lemma scan_body_raises (img : bytes) (i : nat) (segs : list segment) (e : exn) :
  scan_body img i segs = Raise e -> e = IndexError.
Proof.
  unfold scan_body. intros H.
  apply bind_Raise in H as [H|(b & _ & H)]; [by apply getitem_raises in H|].
  destruct (ord b =? 255); [|discriminate]. cbv zeta in H.
  apply bind_Raise in H as [H|(m & _ & H)]; [by apply getitem_raises in H|].
  destruct (standalone m); [discriminate|].
  destruct (ord m =? 218).
  - apply bind_Raise in H as [H|(r & _ & H)];
      [by apply sos_search_raises in H|]. destruct r; discriminate.
  - apply bind_Raise in H as [H|(c1 & _ & H)]; [by apply getitem_raises in H|].
    apply bind_Raise in H as [H|(c2 & _ & H)]; [by apply getitem_raises in H|].
    discriminate.
Qed.

Lemma scan_loop_raises (fuel : nat) :
  forall (img : bytes) (i : nat) (segs : list segment) (e : exn),
    scan_loop fuel img i segs = Raise e -> e = IndexError.
Proof.
  induction fuel as [|fuel IH]; intros img i segs e H.
  - simpl in H. destruct (negb _); discriminate.
  - destruct (Nat.lt_ge_cases i (length img)) as [Hi|Hi];
      [|rewrite scan_loop_done in H by lia; discriminate].
    rewrite scan_loop_S in H by done.
    apply bind_Raise in H as [H|(st & _ & H)];
      [by apply scan_body_raises in H | by apply IH in H].
Qed.

(** X1: the only exception the constructor raises on a string that begins
    with the signature is IndexError. *)
Theorem init_bytes_raises_IndexError (fs : bytes -> option bytes)
    (buf : bytes) (e : exn) :
  startswith buf [xff; xd8; xff] = true ->
  __init__ fs (PyStr buf) = Raise e ->
  e = IndexError.
Proof.
  intros Hsig H. unfold __init__ in H. rewrite Hsig in H.
  apply bind_Raise in H as [H|(segs & _ & H)]; [|discriminate].
  by apply scan_loop_raises in H.
Qed.

(** X1 (witness): the theorem at a concrete input. *)
Lemma init_bytes_raises_IndexError_witness : IndexError = IndexError.
Proof.
  apply (init_bytes_raises_IndexError no_files [xff; xd8; xff; xe0; x00]);
    reflexivity.
Defined.

Lemma scan_loop_no_ff (fuel : nat) :
  forall (img : bytes) (i : nat) (segs : list segment),
    Forall (fun b => ord b <> 0xff) img ->
    (length img - i <= fuel)%nat ->
    scan_loop fuel img i segs = Ok segs.
Proof.
  induction fuel as [|fuel IH]; intros img i segs Hall Hf.
  - apply scan_loop_done. lia.
  - destruct (Nat.lt_ge_cases i (length img)) as [Hi|Hi];
      [|apply scan_loop_done; lia].
    rewrite scan_loop_S by done. unfold scan_body.
    destruct (lookup_lt_is_Some_2 img i Hi) as [b Hb].
    rewrite (proj2 (getitem_Ok _ _ _) Hb). simpl.
    rewrite Forall_lookup in Hall. apply Hall in Hb as Hne.
    apply Z.eqb_neq in Hne. rewrite Hne. simpl. apply IH; [|lia].
    by rewrite Forall_lookup.
Qed.

(** X2: bytes without any FF byte, read from a file object, give a
    container with no segment and no error: the content of what is read
    is not checked for the JPEG signature. *)
Theorem init_no_ff_is_empty (fs : bytes -> option bytes) (img : bytes) :
  Forall (fun b => ord b <> 0xff) img ->
  __init__ fs (PyFile img) = Ok (mkJFIF []).
Proof.
  intros Hall. unfold __init__, scan.
  by rewrite scan_loop_no_ff by (done || lia).
Qed.

(** X2 (witness): the theorem at a concrete input. *)
Lemma init_no_ff_is_empty_witness :
  __init__ no_files (PyFile [x68; x65; x6c; x6c; x6f]) = Ok (mkJFIF []).
Proof.
  apply (init_no_ff_is_empty no_files [x68; x65; x6c; x6c; x6f]).
  repeat constructor; discriminate.
Defined.

(** X3: getBytes() returns on every container the scanner builds. *)
Theorem scanned_container_rebuilds (img : bytes) (segs : list segment) :
  scan img = Ok segs -> exists out, getBytes (mkJFIF segs) = Ok out.
Proof.
  intros H. apply scan_scanned in H.
  destruct (getBytes_loop_scanned segs [xff; xd8] H) as [out Hout].
  exists (out ++ [xff; xd9]). unfold getBytes. simpl. by rewrite Hout.
Qed.

(** X3 (witness): the theorem at a concrete input. *)
Lemma scanned_container_rebuilds_witness :
  exists out, getBytes (mkJFIF [(0xe0, [x41])]) = Ok out.
Proof.
  apply (scanned_container_rebuilds [xff; xd8; xff; xe0; x00; x10; x41]).
  reflexivity.
Defined.

(** X4: the scanner never emits a segment for a standalone marker
    (01, D0-D9); every marker it emits is a byte value, and every payload
    it takes by a length field has at most 65533 bytes. *)
Theorem scan_markers (img : bytes) (segs : list segment) :
  scan img = Ok segs ->
  Forall (fun s => 0 <= s.1 < 256 /\ s.1 <> 0x01 /\ ~ (0xd0 <= s.1 <= 0xd9) /\
                   (s.1 <> SOS -> len s.2 <= 65533)) segs.
Proof.
  intros H. apply scan_scanned in H.
  eapply Forall_impl; [exact H|]. intros s [[Hm _]|[(Hr & H1 & Hn) Hlen]].
  - rewrite Hm. unfold SOS. repeat split; lia.
  - repeat split; (done || lia).
Qed.

(** X4 (witness): the theorem at a concrete input. *)
Lemma scan_markers_witness :
  Forall (fun s => 0 <= s.1 < 256 /\ s.1 <> 0x01 /\ ~ (0xd0 <= s.1 <= 0xd9) /\
                   (s.1 <> jfif.SOS -> len s.2 <= 65533))
    [(0xe0, [x4a; x46]); (0xda, [x01; x02])].
Proof.
  apply (scan_markers [xff; xd8; xff; xe0; x00; x04; x4a; x46; xff; xd0;
                       xff; xda; x01; x02; xff; xd9]).
  reflexivity.
Defined.

(** The branches of one successful iteration of the outer loop. *)
Ltac scan_body_inv H :=
  unfold scan_body in H;
  let b := fresh "b" in let Hb := fresh "Hb" in
  let m := fresh "m" in let Hm := fresh "Hm" in
  let r := fresh "r" in let Hr := fresh "Hr" in
  let c1 := fresh "c1" in let Hc1 := fresh "Hc1" in
  let c2 := fresh "c2" in let Hc2 := fresh "Hc2" in
  inv_bind H as b Hb; cbv zeta in H;
  destruct (ord b =? 0xff);
  [ inv_bind H as m Hm;
    destruct (standalone m);
    [ | destruct (ord m =? 0xda);
        [ inv_bind H as r Hr; destruct r
        | inv_bind H as c1 Hc1; inv_bind H as c2 Hc2 ] ]
  | ];
  injection H as <- <-.

Lemma scan_body_slices (img : bytes) (i i' : nat) (segs segs' : list segment) :
  scan_body img i segs = Ok (i', segs') ->
  Forall (fun s => exists a b, s.2 = slice img a b) segs ->
  Forall (fun s => exists a b, s.2 = slice img a b) segs'.
Proof.
  intros H Hall. scan_body_inv H; try done;
    (apply Forall_app; split; [done|]; apply Forall_singleton; simpl; eauto).
Qed.

Lemma scan_loop_slices (fuel : nat) :
  forall (img : bytes) (i : nat) (segs segs' : list segment),
    scan_loop fuel img i segs = Ok segs' ->
    Forall (fun s => exists a b, s.2 = slice img a b) segs ->
    Forall (fun s => exists a b, s.2 = slice img a b) segs'.
Proof.
  induction fuel as [|fuel IH]; intros img i segs segs' H Hall.
  - simpl in H. destruct (negb _); [by injection H as <- | discriminate].
  - destruct (Nat.lt_ge_cases i (length img)) as [Hi|Hi].
    + rewrite scan_loop_S in H by done. inv_bind H as st Hst.
      destruct st as [i1 segs1]. eapply IH; [exact H|].
      eapply scan_body_slices; eauto.
    + rewrite scan_loop_done in H by lia. by injection H as <-.
Qed.

(** X5: every payload the scanner emits is a run of consecutive bytes of
    the buffer, [img[a:b]] for some [a] and [b]. *)
Theorem scan_payloads_are_slices (img : bytes) (segs : list segment) :
  scan img = Ok segs ->
  Forall (fun s => exists a b, s.2 = slice img a b) segs.
Proof. intros H. eapply scan_loop_slices; [exact H | constructor]. Qed.

(** X5 (witness): the theorem at a concrete input. *)
Lemma scan_payloads_are_slices_witness :
  Forall (fun s : jfif.segment => exists a b,
            s.2 = slice [xff; xd8; xff; xe0; x00; x10; x41] a b)
    [(0xe0, [x41])].
Proof.
  apply (scan_payloads_are_slices [xff; xd8; xff; xe0; x00; x10; x41]).
  reflexivity.
Defined.

End ScannerFacts.

(** ** jfif.py: what the constructor refuses *)

Section ConstructionClaims.
Import jfif.




End ConstructionClaims.

Section RebuildFacts.
Import jfif.

Lemma chr_raises (n : Z) (e : exn) :
  chr n = Raise e -> e = ValueError \/ e = OverflowError.
Proof.
  unfold chr. destruct (_ || _); [intros [= <-]; by right|].
  destruct (_ && _); [|intros [= <-]; by left].
  destruct (Byte.of_N _); [discriminate | intros [= <-]; by left].
Qed.

Lemma chr_fuel (n : Z) : chr n <> OutOfFuel.
Proof.
  unfold chr. destruct (_ || _); [discriminate|].
  destruct (_ && _); [|discriminate].
  destruct (Byte.of_N _); discriminate.
Qed.

Lemma getBytes_step_encodable (pre pre1 : bytes) (s : segment) :
  getBytes_step pre s = Ok pre1 -> encodable s.
Proof.
  unfold getBytes_step, encodable.
  destruct (Z.eqb_spec s.1 SOS) as [E|E]; [by left|]. intros H. right.
  inv_bind H as c Hc. inv_bind H as hi Hhi. inv_bind H as lo Hlo.
  apply chr_Ok in Hc, Hhi. pose proof (ord_range c). pose proof (ord_range hi).
  pose proof (len_nonneg s.2).
  rewrite Z.shiftr_div_pow2 in Hhi by lia. change (2 ^ 8) with 256 in Hhi.
  split; [lia|].
  pose proof (Z.div_mod (len s.2 + 2) 256).
  pose proof (Z.mod_pos_bound (len s.2 + 2) 256). lia.
Qed.

Lemma getBytes_step_returns (pre : bytes) (s : segment) :
  encodable s -> exists pre1, getBytes_step pre s = Ok pre1.
Proof.
  intros [Hm|[Hr Hlen]]; unfold getBytes_step.
  - rewrite Hm. simpl. eauto.
  - destruct (s.1 =? SOS); [eauto|].
    pose proof (len_nonneg s.2) as H0.
    destruct (chr_in_range s.1) as [c ->]; [lia|]. simpl.
    destruct (chr_in_range (Z.shiftr (len s.2 + 2) 8)) as [hi ->].
    { rewrite Z.shiftr_div_pow2 by lia. change (2 ^ 8) with 256.
      split; [apply Z.div_pos; lia | apply Z.div_lt_upper_bound; lia]. }
    simpl.
    destruct (chr_in_range (Z.land (len s.2 + 2) 0xff)) as [lo ->].
    { change 0xff with (Z.ones 8). rewrite Z.land_ones by lia.
      apply Z.mod_pos_bound. lia. }
    simpl. eauto.
Qed.

Lemma getBytes_step_raises (pre : bytes) (s : segment) (e : exn) :
  getBytes_step pre s = Raise e -> e = ValueError \/ e = OverflowError.
Proof.
  unfold getBytes_step. destruct (s.1 =? SOS); [discriminate|]. intros H.
  apply bind_Raise in H as [H|(c & _ & H)]; [by apply chr_raises in H|].
  apply bind_Raise in H as [H|(hi & _ & H)]; [by apply chr_raises in H|].
  apply bind_Raise in H as [H|(lo & _ & H)]; [by apply chr_raises in H|].
  discriminate.
Qed.

Lemma getBytes_loop_returns_iff (segs : list segment) :
  forall pre,
    (exists img, getBytes_loop segs pre = Ok img) <-> Forall encodable segs.
Proof.
  induction segs as [|s segs IH]; intros pre; simpl.
  - split; [constructor | eauto].
  - split.
    + intros [img H]. inv_bind H as pre1 Hs. constructor.
      * by eapply getBytes_step_encodable.
      * apply (IH pre1). eauto.
    + intros H. apply Forall_cons in H as [Hs H].
      destruct (getBytes_step_returns pre s Hs) as [pre1 ->]. simpl.
      by apply IH.
Qed.

Lemma getBytes_loop_raises (segs : list segment) :
  forall pre e,
    getBytes_loop segs pre = Raise e -> e = ValueError \/ e = OverflowError.
Proof.
  induction segs as [|s segs IH]; intros pre e H; simpl in H; [discriminate|].
  apply bind_Raise in H as [H|(pre1 & _ & H)];
    [by apply getBytes_step_raises in H | by apply IH in H].
Qed.

(** X6: getBytes() returns exactly when every segment that is not an SOS
    segment has a marker in 0..255 and a payload of at most 65533 bytes;
    otherwise it raises what [chr] raises: ValueError, or OverflowError
    for an integer that does not fit a C long. *)
Theorem getBytes_returns_iff (self : JFIF) :
  ((exists img, getBytes self = Ok img) <->
   Forall encodable (_segments self)) /\
  (forall e, getBytes self = Raise e -> e = ValueError \/ e = OverflowError).
Proof.
  unfold getBytes. split; [split|].
  - intros [img H]. inv_bind H as img0 H0.
    apply (getBytes_loop_returns_iff _ [xff; xd8]). eauto.
  - intros H. apply (getBytes_loop_returns_iff _ [xff; xd8]) in H as [img0 ->].
    simpl. eauto.
  - intros e H. apply bind_Raise in H as [H|(img0 & _ & H)]; [|discriminate].
    by apply getBytes_loop_raises in H.
Qed.

(** X6 (witness): the theorem at a concrete input. *)
Lemma getBytes_returns_iff_witness :
  (exists img, getBytes (mkJFIF [(0xe0, [x4a]); (0xda, [x01])]) = Ok img) /\
  (ValueError = ValueError \/ ValueError = OverflowError) /\
  (OverflowError = ValueError \/ OverflowError = OverflowError).
Proof.
  split.
  - apply (proj1 (getBytes_returns_iff _)). simpl.
    constructor; [right; unfold len; simpl; lia|].
    constructor; [by left | constructor].
  - split.
    + apply (proj2 (getBytes_returns_iff (mkJFIF [(256, [])]))). reflexivity.
    + apply (proj2 (getBytes_returns_iff (mkJFIF [(2 ^ 64, [])]))).
      reflexivity.
Defined.

(** X7: whatever getBytes() returns begins with SOI, ends with EOI, and
    begins with the three signature bytes FF D8 FF, so the constructor
    takes it for image bytes and never for a file name. *)
Theorem getBytes_framing (self : JFIF) (img : bytes) :
  getBytes self = Ok img ->
  (exists mid, img = [xff; xd8] ++ mid ++ [xff; xd9]) /\
  startswith img [xff; xd8; xff] = true.
Proof.
  unfold getBytes. intros H. inv_bind H as img0 H0. injection H as <-.
  split.
  - destruct (getBytes_loop_prefix _ _ _ H0) as [tail ->].
    exists tail. by rewrite <- app_assoc.
  - destruct (getBytes_loop_head _ _ _ H0) as (c & rest & -> & _).
    reflexivity.
Qed.

(** X7 (witness): the theorem at a concrete input. *)
Lemma getBytes_framing_witness :
  (exists mid, [xff; xd8; xff; xd9] = [xff; xd8] ++ mid ++ [xff; xd9]) /\
  startswith [xff; xd8; xff; xd9] [xff; xd8; xff] = true.
Proof. apply (getBytes_framing (mkJFIF [])). reflexivity. Defined.

(** X8: a container built from a list of segments of the kind the scanner
    emits (an SOS segment whose payload holds no byte pair that ends a
    scan and does not end in FF, or a marker that is a byte other than 01
    and D0-DA with a payload of at most 65533 bytes), with no SOS segment
    directly followed by a segment of marker 0, is rebuilt by getBytes()
    into a stream from which the constructor builds the same list. *)
Theorem list_container_rescans (fs : bytes -> option bytes)
    (segs : list segment) :
  Forall scanned segs ->
  sos_then_zero segs = false ->
  exists img,
    getBytes (mkJFIF segs) = Ok img /\
    __init__ fs (PyStr img) = Ok (mkJFIF segs).
Proof.
  intros Hall Hz.
  destruct (getBytes_loop_scanned segs [xff; xd8] Hall) as [img0 Hb].
  exists (img0 ++ [xff; xd9]). unfold getBytes. simpl. rewrite Hb. simpl.
  split; [done|].
  destruct (getBytes_loop_head _ _ _ Hb) as (c & rest & HB & _).
  assert (startswith (img0 ++ [xff; xd9]) [xff; xd8; xff] = true) as Hsig
    by (by rewrite HB).
  assert (scan (img0 ++ [xff; xd9]) = Ok segs) as Hre.
  { unfold scan. rewrite length_app. simpl.
    replace (length img0 + 2)%nat with (S (S (length img0))) by lia.
    rewrite scan_loop_S by (rewrite length_app; simpl; lia).
    assert (scan_body (img0 ++ [xff; xd9]) 0 [] = Ok (length [xff; xd8], []))
      as -> by (by rewrite HB).
    simpl fst. simpl snd.
    apply (rescan segs [xff; xd8] img0 []); (done || simpl; lia). }
  unfold __init__. rewrite Hsig, Hre. reflexivity.
Qed.

(** X8 (witness): the theorem at a concrete input. *)
Lemma list_container_rescans_witness :
  exists img,
    getBytes (mkJFIF [(0xdb, [x00; x10]); (0xda, [xff; x00; xff; xd3; x07])])
    = Ok img /\
    __init__ no_files (PyStr img)
    = Ok (mkJFIF [(0xdb, [x00; x10]); (0xda, [xff; x00; xff; xd3; x07])]).
Proof.
  apply (list_container_rescans no_files); [|reflexivity].
  constructor; [right; unfold framed_marker, len; simpl; lia|].
  constructor; [|constructor].
  left. simpl. repeat split; reflexivity.
Defined.

End RebuildFacts.

Section WriteFacts.
Import jfif.

(** The writes of one segment against the bytes getBytes() adds for it. *)
Lemma write_step_getBytes_step (s : segment) (pre : bytes) (out : list bytes) :
  match getBytes_step pre s with
  | Ok pre1 =>
      exists chunks,
        write_step s out = (out ++ chunks, Ok tt) /\ pre1 = pre ++ concat chunks
  | Raise e => exists chunks, write_step s out = (out ++ chunks, Raise e)
  | OutOfFuel => False
  end.
Proof.
  unfold getBytes_step, write_step, w_bind, w_lift, outfile_write.
  destruct (s.1 =? SOS).
  { exists [[xff; xda]; s.2]. split; [by rewrite <- app_assoc|].
    simpl. by rewrite app_nil_r. }
  destruct (chr s.1) as [c|e|] eqn:Hc; simpl;
    [| by exists [[xff]] | by apply chr_fuel in Hc].
  destruct (chr (Z.shiftr (len s.2 + 2) 8)) as [hi|e|] eqn:Hhi; simpl;
    [| exists [[xff]; [c]]; by rewrite <- app_assoc | by apply chr_fuel in Hhi].
  destruct (chr (Z.land (len s.2 + 2) 255)) as [lo|e|] eqn:Hlo; simpl;
    [| exists [[xff]; [c]; [hi]]; by rewrite <- !app_assoc
     | by apply chr_fuel in Hlo].
  exists [[xff]; [c]; [hi]; [lo]; s.2]. split.
  - by rewrite <- !app_assoc.
  - simpl. rewrite app_nil_r. by rewrite <- !app_assoc.
Qed.

Lemma write_loop_getBytes_loop (segs : list segment) :
  forall (pre : bytes) (out : list bytes),
    match getBytes_loop segs pre with
    | Ok img =>
        exists chunks,
          write_loop segs out = (out ++ chunks, Ok tt) /\
          img = pre ++ concat chunks
    | Raise e => exists chunks, write_loop segs out = (out ++ chunks, Raise e)
    | OutOfFuel => False
    end.
Proof.
  induction segs as [|s segs IH]; intros pre out; simpl.
  - exists []. by rewrite !app_nil_r.
  - pose proof (write_step_getBytes_step s pre out) as Hs.
    unfold w_bind. destruct (getBytes_step pre s) as [pre1|e|]; simpl.
    + destruct Hs as (chunks & -> & ->).
      specialize (IH (pre ++ concat chunks) (out ++ chunks)).
      destruct (getBytes_loop segs (pre ++ concat chunks)) as [img|e|].
      * destruct IH as (chunks' & -> & ->). exists (chunks ++ chunks').
        rewrite concat_app. by rewrite !app_assoc.
      * destruct IH as (chunks' & ->). exists (chunks ++ chunks').
        by rewrite app_assoc.
      * done.
    + destruct Hs as (chunks & ->). by exists chunks.
    + done.
Qed.

(** X9: when getBytes() returns [img], write() to a file object raises
    nothing and the strings it writes, in order, concatenate to [img]. *)
Theorem write_streams_getBytes (opens : bytes -> bool) (self : JFIF)
    (img : bytes) (out : list bytes) :
  getBytes self = Ok img ->
  exists chunks,
    write opens self OutObject out = (out ++ chunks, Ok tt) /\
    concat chunks = img.
Proof.
  unfold getBytes, write, w_bind, outfile_write. intros H.
  inv_bind H as img0 H0. injection H as <-.
  pose proof (write_loop_getBytes_loop (_segments self) [xff; xd8]
                (out ++ [[xff; xd8]])) as Hw.
  rewrite H0 in Hw. destruct Hw as (chunks & -> & ->).
  exists ([[xff; xd8]] ++ chunks ++ [[xff; xd9]]). split.
  - by rewrite <- !app_assoc.
  - rewrite !concat_app. reflexivity.
Qed.

(** X9 (witness): the theorem at a concrete input. *)
Lemma write_streams_getBytes_witness :
  exists chunks,
    write (fun _ => true) (mkJFIF [(0xe0, [x4a; x46])]) OutObject []
    = ([] ++ chunks, Ok tt) /\
    concat chunks = [xff; xd8; xff; xe0; x00; x04; x4a; x46; xff; xd9].
Proof.
  apply (write_streams_getBytes (fun _ => true) (mkJFIF [(0xe0, [x4a; x46])])).
  reflexivity.
Defined.

(** X10: when getBytes() raises, write() to a file object raises the same
    exception, but only after it has written SOI (and what comes before
    the segment that cannot be framed): the output is left incomplete. *)
Theorem write_fails_after_soi (opens : bytes -> bool) (self : JFIF)
    (e : exn) (out : list bytes) :
  getBytes self = Raise e ->
  exists chunks,
    write opens self OutObject out = (out ++ [xff; xd8] :: chunks, Raise e).
Proof.
  unfold getBytes, write, w_bind, outfile_write. intros H.
  apply bind_Raise in H as [H|(img0 & _ & H)]; [|discriminate].
  pose proof (write_loop_getBytes_loop (_segments self) [xff; xd8]
                (out ++ [[xff; xd8]])) as Hw.
  rewrite H in Hw. destruct Hw as (chunks & ->).
  exists chunks. by rewrite <- app_assoc.
Qed.

(** X10 (witness): the theorem at a concrete input. *)
Lemma write_fails_after_soi_witness :
  exists chunks,
    write (fun _ => true) (mkJFIF [(0xdb, [x01]); (300, [])]) OutObject []
    = ([] ++ [xff; xd8] :: chunks, Raise ValueError).
Proof.
  apply (write_fails_after_soi (fun _ => true)
           (mkJFIF [(0xdb, [x01]); (300, [])])).
  reflexivity.
Defined.

(** *** The stripping loop of the test code *)

Lemma bind_ret {A} (r : result A) : bind r Ok = r.
Proof. by destruct r. Qed.

Lemma getMD5_loop_cat (l1 l2 : list segment) :
  forall h,
    getMD5_loop (l1 ++ l2) h = let* a := getMD5_loop l1 h in getMD5_loop l2 a.
Proof.
  induction l1 as [|s l1 IH]; intros h; simpl; [done|].
  destruct (s.1 =? COM); [apply IH|].
  destruct ((APP_0 <=? s.1) && (s.1 <=? APP_15)); [apply IH|].
  destruct (chr s.1); simpl; [apply IH | done..].
Qed.

Lemma strip_loop_getMD5 (segs : list segment) :
  forall ns h,
    getMD5_loop (strip_loop segs ns) h
    = let* a := getMD5_loop ns h in getMD5_loop segs a.
Proof.
  induction segs as [|s segs IH]; intros ns h; simpl.
  - by rewrite bind_ret.
  - destruct (Z.eqb_spec s.1 APP_0) as [E|E]; simpl.
    + rewrite E. simpl.
      destruct (startswith s.2 _); rewrite IH; [|done].
      rewrite getMD5_loop_cat. simpl. rewrite E. simpl.
      by destruct (getMD5_loop ns h).
    + destruct ((APP_0 <=? s.1) && (s.1 <=? APP_15)) eqn:Happ; simpl.
      * rewrite IH. by destruct (s.1 =? COM).
      * destruct (s.1 =? COM) eqn:Hcom; [apply IH|]. rewrite IH.
        rewrite getMD5_loop_cat. simpl. rewrite Hcom, Happ.
        destruct (getMD5_loop ns h); simpl; try done.
        by destruct (chr s.1).
Qed.

(** X11: the list the test code keeps (JFIF header and every segment that
    is neither an application segment nor a comment) has the same MD5
    fingerprint as the list it was taken from. *)
Theorem strip_keeps_fingerprint (segs : list segment) :
  getMD5 (mkJFIF (strip_loop segs [])) = getMD5 (mkJFIF segs).
Proof. unfold getMD5. simpl. by rewrite strip_loop_getMD5. Qed.

Lemma getSize_loop_cat (l1 l2 : list segment) :
  getSize_loop (l1 ++ l2) =
    match getSize_loop l1 with
    | Ok None => getSize_loop l2
    | r => r
    end.
Proof.
  induction l1 as [|s l1 IH]; simpl; [done|].
  destruct ((SOF_0 <=? s.1) && (s.1 <=? SOF_3)); [|done].
  destruct (getitem s.2 3); simpl; [|done..].
  destruct (getitem s.2 4); simpl; [|done..].
  destruct (getitem s.2 1); simpl; [|done..].
  by destruct (getitem s.2 2).
Qed.

Lemma strip_loop_getSize (segs : list segment) :
  forall ns,
    getSize_loop (strip_loop segs ns) =
      match getSize_loop ns with
      | Ok None => getSize_loop segs
      | r => r
      end.
Proof.
  induction segs as [|s segs IH]; intros ns; simpl.
  - by destruct (getSize_loop ns) as [[?|]| |].
  - destruct (Z.eqb_spec s.1 APP_0) as [E|E]; simpl.
    + rewrite E. simpl.
      destruct (startswith s.2 _); rewrite IH; [|done].
      rewrite getSize_loop_cat. simpl. rewrite E. simpl.
      by destruct (getSize_loop ns) as [[?|]| |].
    + destruct ((APP_0 <=? s.1) && (s.1 <=? APP_15)) eqn:Happ; simpl.
      * rewrite IH.
        assert ((SOF_0 <=? s.1) && (s.1 <=? SOF_3) = false) as ->; [|done].
        apply andb_true_iff in Happ as [H1 H2]. apply andb_false_iff.
        rewrite !Z.leb_gt. unfold APP_0, SOF_3 in *. lia.
      * destruct (Z.eqb_spec s.1 COM) as [Ec|Ec]; rewrite IH.
        -- assert ((SOF_0 <=? s.1) && (s.1 <=? SOF_3) = false) as ->; [|done].
           rewrite Ec. reflexivity.
        -- rewrite getSize_loop_cat. simpl.
           destruct (getSize_loop ns) as [[?|]| |]; try done.
           destruct ((SOF_0 <=? s.1) && (s.1 <=? SOF_3)); [|done].
           destruct (getitem s.2 3); simpl; [|done..].
           destruct (getitem s.2 4); simpl; [|done..].
           destruct (getitem s.2 1); simpl; [|done..].
           by destruct (getitem s.2 2).
Qed.

(** X12: the list the test code keeps gives the same getSize() result,
    value or exception, as the list it was taken from. *)
Theorem strip_keeps_size (segs : list segment) :
  getSize (mkJFIF (strip_loop segs [])) = getSize (mkJFIF segs).
Proof. unfold getSize. simpl. by rewrite strip_loop_getSize. Qed.

End WriteFacts.

(** * Further properties of exif.py *)

Section TableFacts.
Import exif.

(** X13: an entry stored under a key is what a read returns under every
    key that normalizes to the same key (the id, or the name the tag table
    gives it). *)
Theorem setitem_getitem (self self' : Exif) (k k' : key) (e : IFDEntry) :
  _normalize_key k' = _normalize_key k ->
  __setitem__ self k (ItemEntry e) = Ok self' ->
  __getitem__ self' k' = Ok e.
Proof.
  intros Hk [= <-]. unfold __getitem__. simpl.
  by rewrite Hk, lookup_insert_eq.
Qed.

(** X13 (witness): the theorem at a concrete input. *)
Lemma setitem_getitem_witness :
  __getitem__
    {| entries := <[KInt 271 := IFDEntry__init__ 271 (VInt 1) None]> ∅;
       dirty := 1 |}
    (KStr "Make")
  = Ok (IFDEntry__init__ 271 (VInt 1) None).
Proof.
  apply (setitem_getitem {| entries := ∅; dirty := 0 |} _ (KInt 271));
    reflexivity.
Defined.

(** X14: storing under one key leaves what is read under every key that
    normalizes to a different key as it was. *)
Theorem setitem_other (self self' : Exif) (k k' : key) (item : pyitem) :
  _normalize_key k' <> _normalize_key k ->
  __setitem__ self k item = Ok self' ->
  __getitem__ self' k' = __getitem__ self k'.
Proof.
  intros Hne H. destruct item as [e|]; [|discriminate]. injection H as <-.
  unfold __getitem__. simpl. by rewrite lookup_insert_ne.
Qed.

(** X14 (witness): the theorem at a concrete input. *)
Lemma setitem_other_witness :
  __getitem__
    {| entries := <[KInt 271 := IFDEntry__init__ 271 (VInt 1) None]> ∅;
       dirty := 1 |}
    (KStr "Model")
  = __getitem__ {| entries := ∅; dirty := 0 |} (KStr "Model").
Proof.
  apply (setitem_other {| entries := ∅; dirty := 0 |} _ (KInt 271)
           (KStr "Model") (ItemEntry (IFDEntry__init__ 271 (VInt 1) None)));
    [discriminate | reflexivity].
Defined.

(** X15: after a successful delete a read under the same key raises
    KeyError, and a delete raises KeyError exactly when a read under that
    key does. *)
Theorem delitem_getitem (self : Exif) (k : key) :
  (forall self', __delitem__ self k = Ok self' ->
                 __getitem__ self' k = Raise KeyError) /\
  (__delitem__ self k = Raise KeyError <-> __getitem__ self k = Raise KeyError).
Proof.
  unfold __delitem__, __getitem__. split.
  - intros self' H. destruct (entries self !! _normalize_key k);
      [|discriminate]. injection H as <-. simpl. by rewrite lookup_delete_eq.
  - destruct (entries self !! _normalize_key k); split; congruence.
Qed.

(** X15 (witness): the theorem at a concrete input. *)
Lemma delitem_getitem_witness :
  __getitem__ {| entries := delete (KInt 271)
                   (<[KInt 271 := IFDEntry__init__ 271 (VInt 1) None]> ∅);
                 dirty := 1 |} (KStr "Make")
  = Raise KeyError /\
  __delitem__ {| entries := ∅; dirty := 0 |} (KStr "Make") = Raise KeyError.
Proof.
  split.
  - apply (proj1 (delitem_getitem
                    {| entries :=
                         <[KInt 271 := IFDEntry__init__ 271 (VInt 1) None]> ∅;
                       dirty := 1 |} (KStr "Make"))).
    vm_compute. reflexivity.
  - apply (proj2 (delitem_getitem {| entries := ∅; dirty := 0 |}
                    (KStr "Make"))).
    reflexivity.
Defined.

Lemma tags_by_name_items :
  Forall (fun p => tags_by_name !! p.2 = Some p.1) tags_by_id_items.
Proof.
  unfold tags_by_id_items.
  repeat (constructor; [vm_compute; reflexivity|]). constructor.
Qed.

(** X16: for every pair of the tag table, the name and the id are the same
    key: reads, inserts and deletes under the name are those under the
    id. *)
Theorem name_is_id (self : Exif) (n : Z) (nm : string) (item : pyitem) :
  (n, nm) ∈ tags_by_id_items ->
  __getitem__ self (KStr nm) = __getitem__ self (KInt n) /\
  __setitem__ self (KStr nm) item = __setitem__ self (KInt n) item /\
  __delitem__ self (KStr nm) = __delitem__ self (KInt n).
Proof.
  intros Hin.
  pose proof (proj1 (Forall_forall _ _) tags_by_name_items _ Hin) as Hnm.
  simpl in Hnm.
  unfold __getitem__, __setitem__, __delitem__, _normalize_key.
  by rewrite Hnm.
Qed.

(** X16 (witness): the theorem at a concrete input. *)
Lemma name_is_id_witness :
  __getitem__ {| entries := ∅; dirty := 0 |} (KStr "Make")
  = __getitem__ {| entries := ∅; dirty := 0 |} (KInt 271) /\
  __setitem__ {| entries := ∅; dirty := 0 |} (KStr "Make") ItemOther
  = __setitem__ {| entries := ∅; dirty := 0 |} (KInt 271) ItemOther /\
  __delitem__ {| entries := ∅; dirty := 0 |} (KStr "Make")
  = __delitem__ {| entries := ∅; dirty := 0 |} (KInt 271).
Proof.
  apply (name_is_id {| entries := ∅; dirty := 0 |} 271 "Make" ItemOther).
  unfold tags_by_id_items. do 13 apply list_elem_of_further.
  apply list_elem_of_here.
Defined.

End TableFacts.

Section DecodeFacts.
Import exif.
Variable native : byteorder.

Lemma sint_range_2 (bs : bytes) :
  length bs = 2%nat -> -32768 <= sint native bs <= 32767.
Proof.
  destruct bs as [|a [|b [|c bs]]]; try discriminate. intros _.
  pose proof (ord_range a). pose proof (ord_range b).
  unfold sint, uint. change (2 ^ (8 * len [a; b] - 1)) with 32768.
  change (2 ^ (8 * len [a; b])) with 65536.
  destruct native; simpl;
    match goal with |- context [?x <? 32768] =>
      destruct (Z.ltb_spec x 32768) end; lia.
Qed.

Lemma sint_range_4 (bs : bytes) :
  length bs = 4%nat -> -2147483648 <= sint native bs <= 2147483647.
Proof.
  destruct bs as [|a [|b [|c [|d [|x bs]]]]]; try discriminate. intros _.
  pose proof (ord_range a). pose proof (ord_range b).
  pose proof (ord_range c). pose proof (ord_range d).
  unfold sint, uint. change (2 ^ (8 * len [a; b; c; d] - 1)) with 2147483648.
  change (2 ^ (8 * len [a; b; c; d])) with 4294967296.
  destruct native; simpl;
    match goal with |- context [?x <? 2147483648] =>
      destruct (Z.ltb_spec x 2147483648) end; lia.
Qed.

Lemma slice_length (s : bytes) (a b : nat) :
  (a <= b)%nat -> (b <= length s)%nat -> length (slice s a b) = (b - a)%nat.
Proof. intros Hab Hb. unfold slice. rewrite length_take, length_drop. lia. Qed.

(** The four fields of a 12-byte entry and their ranges. *)
Lemma unpack_hhii_ranges (s : bytes) (tag ty num_vals val_off : Z) :
  unpack_hhii native s = Ok (tag, ty, num_vals, val_off) ->
  -32768 <= tag <= 32767 /\ -32768 <= ty <= 32767 /\
  -2147483648 <= num_vals <= 2147483647 /\
  -2147483648 <= val_off <= 2147483647.
Proof.
  unfold unpack_hhii, sized.
  destruct (Nat.eqb_spec (length s) 12) as [Hl|]; [|discriminate]. simpl.
  intros [= <- <- <- <-].
  repeat split;
    try (apply sint_range_2; rewrite slice_length; lia);
    try (apply sint_range_4; rewrite slice_length; lia).
Qed.

Lemma tags_by_id_copyright (n : Z) :
  tags_by_id !! n = Some "Copyright"%string -> n = 33432.
Proof.
  intros H. apply elem_of_list_to_map_2 in H.
  assert (Forall (fun p : Z * string =>
                    p.2 = "Copyright"%string -> p.1 = 33432)
            tags_by_id_items) as Hall.
  { unfold tags_by_id_items.
    repeat (constructor;
            [simpl; intros Hs; (discriminate Hs || reflexivity)|]).
    constructor. }
  by apply (proj1 (Forall_forall _ _) Hall _ H).
Qed.

(** What a successful decode went through. *)
Lemma decode_inv (data : bytes) (offset : Z) (e : IFDEntry) :
  _decode_tiff_value native data offset = Ok e ->
  exists tag ty num_vals val_off val,
    unpack_hhii native (py_slice data offset (offset + 12))
    = Ok (tag, ty, num_vals, val_off) /\
    e = IFDEntry__init__ tag val (Some ty) /\
    1 <= ty <= 5 /\
    ((ty = 1 \/ ty = 3 \/ ty = 4) -> val = VInt val_off) /\
    (ty = 2 -> val = VStr (py_slice data val_off (val_off + num_vals - 1))).
Proof.
  unfold _decode_tiff_value. intros H.
  destruct (negb _); [discriminate|].
  inv_bind H as hdr Hhdr. destruct hdr as [[[tag ty] num_vals] val_off].
  inv_bind H as val Hval. injection H as <-.
  exists tag, ty, num_vals, val_off, val. split; [done|]. split; [done|].
  destruct (Z.eqb_spec ty 1) as [->|?];
    [injection Hval as <-; repeat split; (lia || done || intros; lia)|].
  destruct (Z.eqb_spec ty 2) as [->|?];
    [injection Hval as <-; repeat split; (lia || done || intros; lia)|].
  destruct (Z.eqb_spec ty 3) as [->|?];
    [injection Hval as <-; repeat split; (lia || done || intros; lia)|].
  destruct (Z.eqb_spec ty 4) as [->|?];
    [injection Hval as <-; repeat split; (lia || done || intros; lia)|].
  destruct (Z.eqb_spec ty 5) as [->|?]; [|discriminate].
  repeat split; (lia || intros; lia).
Qed.

(** X17: tag ids are unpacked as signed 16-bit integers: every decoded
    entry has an id between -32768 and 32767 and the name the tag table
    gives that id, so no decoded entry is ever named Copyright (id 33432
    in the table). *)
Theorem decoded_id_is_signed (data : bytes) (offset : Z) (e : IFDEntry) :
  _decode_tiff_value native data offset = Ok e ->
  -32768 <= id e <= 32767 /\
  name e = tags_by_id !! id e /\
  name e <> Some "Copyright"%string.
Proof.
  intros H. apply decode_inv in H
    as (tag & ty & num_vals & val_off & val & Hhdr & -> & _).
  apply unpack_hhii_ranges in Hhdr as (Htag & _). simpl.
  repeat split; try lia.
  intros Hc. apply tags_by_id_copyright in Hc. lia.
Qed.

(** X18: an entry of type Byte, Short or Long has as its value the last
    field of the entry read as a signed 32-bit integer, whatever the
    type: the value lies between -2^31 and 2^31 - 1. *)
Theorem inline_value_is_signed (data : bytes) (offset : Z) (e : IFDEntry) :
  _decode_tiff_value native data offset = Ok e ->
  typ e = Some 1 \/ typ e = Some 3 \/ typ e = Some 4 ->
  exists v, value e = VInt v /\ -2147483648 <= v <= 2147483647.
Proof.
  intros H Hty. apply decode_inv in H
    as (tag & ty & num_vals & val_off & val & Hhdr & -> & _ & Hint & _).
  simpl in *. apply unpack_hhii_ranges in Hhdr as (_ & _ & _ & Hv).
  exists val_off. split; [|lia]. apply Hint.
  destruct Hty as [[= ->]|[[= ->]|[= ->]]]; auto.
Qed.

Lemma chunk_raises (s : bytes) (e : exn) :
  length s = 12%nat -> unpack_hhii native s = Raise e -> False.
Proof.
  unfold unpack_hhii, sized. intros ->. discriminate.
Qed.

(** X19: [_decode_tiff_value] raises ValueError (entry shorter than 12
    bytes, or a type other than 1..5), or, for an entry of type 5 only,
    struct.error (fewer than 8 bytes at the value offset) or
    ZeroDivisionError; nothing else. *)
Theorem decode_raises (data : bytes) (offset : Z) (e : exn) :
  _decode_tiff_value native data offset = Raise e ->
  e = ValueError \/
  ((exists tag num_vals val_off,
       unpack_hhii native (py_slice data offset (offset + 12))
       = Ok (tag, 5, num_vals, val_off)) /\
   (e = StructError \/ e = ZeroDivisionError)).
Proof.
  unfold _decode_tiff_value. intros H.
  destruct (Nat.eqb_spec (length (py_slice data offset (offset + 12))) 12)
    as [Hl|]; simpl in H; [|injection H as <-; by left].
  apply bind_Raise in H as [H|(hdr & Hhdr & H)];
    [by apply chunk_raises in H|].
  destruct hdr as [[[tag ty] num_vals] val_off].
  apply bind_Raise in H as [H|(val & _ & H)]; [|discriminate].
  destruct (ty =? 1); [discriminate|]. destruct (ty =? 2); [discriminate|].
  destruct (ty =? 3); [discriminate|]. destruct (ty =? 4); [discriminate|].
  destruct (Z.eqb_spec ty 5) as [->|?]; [|injection H as <-; by left].
  right. split; [eauto|].
  apply bind_Raise in H as [H|(nd & _ & H)].
  - left. unfold unpack_II, sized in H.
    destruct (_ =? _)%nat; simpl in H; congruence.
  - right. apply bind_Raise in H as [H|(q & _ & H)]; [|discriminate].
    unfold py_div in H. destruct (_ =? _); congruence.
Qed.

Lemma py_slice_app (pre s rest : bytes) (a b : Z) :
  a = len pre -> b = len pre + len s ->
  py_slice (pre ++ s ++ rest) a b = s.
Proof.
  intros -> ->. unfold py_slice, slice_index.
  pose proof (len_nonneg pre). pose proof (len_nonneg s).
  pose proof (len_nonneg rest).
  assert (len (pre ++ s ++ rest) = len pre + len s + len rest) as ->
    by (unfold len; rewrite !length_app; lia).
  destruct (Z.ltb_spec (len pre) 0); [lia|].
  destruct (Z.ltb_spec (len pre + len s) 0); [lia|].
  rewrite !Z.min_l by lia.
  apply slice_app_eq with (pre := pre) (rest := rest);
    unfold len; (done || lia).
Qed.

(** X20: an entry of type Ascii with count [n] has as its value the
    [n - 1] bytes at its value offset; the last of the [n] bytes, the
    terminating zero of a well-formed block, is dropped without being
    looked at. *)
Theorem ascii_value (data pre s rest : bytes) (offset tag : Z) :
  unpack_hhii native (py_slice data offset (offset + 12))
  = Ok (tag, 2, len s + 1, len pre) ->
  data = pre ++ s ++ rest ->
  _decode_tiff_value native data offset
  = Ok (IFDEntry__init__ tag (VStr s) (Some 2)).
Proof.
  intros Hhdr ->. unfold _decode_tiff_value.
  rewrite (unpack_hhii_length _ _ _ Hhdr). simpl. rewrite Hhdr. simpl.
  by rewrite (py_slice_app pre s rest) by lia.
Qed.

Lemma py_slice_head (data : bytes) (n : Z) :
  0 <= n -> py_slice data 0 n = take (Z.to_nat n) data.
Proof.
  intros Hn. unfold py_slice, slice_index, slice.
  pose proof (len_nonneg data) as Hl.
  destruct (Z.ltb_spec n 0); [lia|].
  change (0 <? 0) with false. cbv iota.
  rewrite (Z.min_l 0) by lia. change (Z.to_nat 0) with 0%nat.
  rewrite drop_0, Nat.sub_0_r.
  destruct (Z.le_ge_cases n (len data)) as [Hle|Hge].
  - by rewrite Z.min_l by lia.
  - rewrite Z.min_r by lia. unfold len in *. rewrite Nat2Z.id.
    rewrite !take_ge; (done || lia).
Qed.

(** X21: the constructor returns a table only for no data, or for a block
    that begins with the two bytes II followed by a 16-bit 42 in the
    host's byte order. *)
Theorem init_signature (fuel : nat) (data : bytes) (t : Exif) :
  __init__ native fuel (Some data) = Ok t ->
  data = [] \/
  exists m0 m1 rest,
    data = x49 :: x49 :: m0 :: m1 :: rest /\ sint native [m0; m1] = 42.
Proof.
  intros H. destruct data as [|d0 data]; [by left|]. right.
  unfold __init__ in H. simpl in H.
  destruct (Z.eqb_spec (ord d0) 73) as [E0|]; [|discriminate]. simpl in H.
  inv_bind H as d1 Hd1.
  destruct (Z.eqb_spec (ord d1) 73) as [E1|]; [|discriminate]. simpl in H.
  inv_bind H as magic Hm.
  destruct (Z.eqb_spec magic 42) as [->|]; [|discriminate].
  apply (ord_inj d0 x49) in E0 as ->. apply (ord_inj d1 x49) in E1 as ->.
  destruct data as [|d1' [|m0 [|m1 rest]]]; try discriminate.
  injection Hd1 as ->. exists m0, m1, rest. split; [done|].
  rewrite (py_slice_head _ 4) in Hm by lia. by injection Hm.
Qed.

Lemma decode_under (data : bytes) (offset : Z) (e : IFDEntry) :
  _decode_tiff_value native data offset = Ok e ->
  decoded_under (KInt (id e)) e.
Proof.
  intros H. apply decode_inv in H
    as (tag & ty & num_vals & val_off & val & _ & -> & Hty & _).
  repeat split. by exists ty.
Qed.

Lemma decode_entries_under (n : nat) :
  forall (data : bytes) (offset : Z) (self self' : Exif) (offset' : Z),
    decode_entries native n data offset self = Ok (self', offset') ->
    (forall k e, entries self !! k = Some e -> decoded_under k e) ->
    forall k e, entries self' !! k = Some e -> decoded_under k e.
Proof.
  induction n as [|n IH]; intros data offset self self' offset' H Hinv.
  - by injection H as <- <-.
  - cbn [decode_entries] in H. inv_bind H as tag Htag.
    inv_bind H as self1 Hset. injection Hset as <-.
    eapply IH; [exact H|]. simpl. intros k e Hk.
    destruct (decide (KInt (id tag) = k)) as [<-|Hne].
    + rewrite lookup_insert_eq in Hk. injection Hk as <-.
      by eapply decode_under.
    + rewrite lookup_insert_ne in Hk by done. by apply Hinv.
Qed.

Lemma directories_under (fuel : nat) :
  forall (data : bytes) (p : Z) (self t : Exif),
    directories native fuel data p self = Ok t ->
    (forall k e, entries self !! k = Some e -> decoded_under k e) ->
    forall k e, entries t !! k = Some e -> decoded_under k e.
Proof.
  induction fuel as [|fuel IH]; intros data p self t H Hinv; [discriminate|].
  cbn [directories] in H. inv_bind H as d Hd.
  destruct (d =? 0); [by injection H as <-|].
  inv_bind H as n Hn. inv_bind H as so Hdec. destruct so as [self' o'].
  eapply IH; [exact H|]. eapply decode_entries_under; eauto.
Qed.

(** X22: in the table the constructor returns every entry is stored under
    its own integer id, carries the name the tag table gives that id, and
    has one of the types 1..5; no key is a name. *)
Theorem init_table_invariant (fuel : nat) (data : option bytes) (t : Exif)
    (k : key) (e : IFDEntry) :
  __init__ native fuel data = Ok t ->
  entries t !! k = Some e ->
  decoded_under k e.
Proof.
  intros H. unfold __init__ in H.
  destruct data as [[|c data]|];
    try (injection H as <-; simpl; by rewrite lookup_empty).
  inv_bind H as d0 Hd0. destruct (negb (ord d0 =? 73)); [discriminate|].
  inv_bind H as d1 Hd1. destruct (negb (ord d1 =? 73)); [discriminate|].
  inv_bind H as magic Hmagic. destruct (negb (magic =? 42)); [discriminate|].
  revert k e. eapply directories_under; [exact H|].
  intros k e. simpl. by rewrite lookup_empty.
Qed.

End DecodeFacts.

Section DecodeExamples.
Import exif.

(** X17 (witness): the theorem at a concrete input. *)
Lemma decoded_id_is_signed_witness :
  -32768 <= -32104 <= 32767 /\
  None = tags_by_id !! (-32104) /\
  None <> Some "Copyright"%string.
Proof.
  apply (decoded_id_is_signed LittleEndian
           [x98; x82; x02; x00; x01; x00; x00; x00; x00; x00; x00; x00] 0
           {| typ := Some 2; id := -32104; value := VStr []; name := None |}).
  reflexivity.
Defined.

(** X18 (witness): the theorem at a concrete input. *)
Lemma inline_value_is_signed_witness :
  exists v, VInt (-1) = VInt v /\ -2147483648 <= v <= 2147483647.
Proof.
  apply (inline_value_is_signed LittleEndian
           [x00; x01; x04; x00; x01; x00; x00; x00; xff; xff; xff; xff] 0
           {| typ := Some 4; id := 256; value := VInt (-1);
              name := Some "ImageWidth"%string |});
    [reflexivity | by right; right].
Defined.

(** X19 (witness): the theorem at a concrete input. *)
Lemma decode_raises_witness :
  StructError = ValueError \/
  ((exists tag num_vals val_off,
       unpack_hhii LittleEndian
         (py_slice [x1a; x01; x05; x00; x01; x00; x00; x00;
                    x0c; x00; x00; x00; x01; x00] 0 (0 + 12))
       = Ok (tag, 5, num_vals, val_off)) /\
   (StructError = StructError \/ StructError = ZeroDivisionError)).
Proof.
  apply (decode_raises LittleEndian
           [x1a; x01; x05; x00; x01; x00; x00; x00; x0c; x00; x00; x00;
            x01; x00] 0 StructError).
  reflexivity.
Defined.

(** X20 (witness): the theorem at a concrete input. *)
Lemma ascii_value_witness :
  _decode_tiff_value LittleEndian ascii_block 10
  = Ok (IFDEntry__init__ 271 (VStr [x41; x43; x4d; x45]) (Some 2)).
Proof.
  apply (ascii_value LittleEndian ascii_block
           [x49; x49; x2a; x00; x08; x00; x00; x00; x01; x00;
            x0f; x01; x02; x00; x05; x00; x00; x00; x1a; x00; x00; x00;
            x00; x00; x00; x00]
           [x41; x43; x4d; x45] [x00] 10 271); reflexivity.
Defined.

(** X21 (witness): the theorem at a concrete input. *)
Lemma init_signature_witness :
  ascii_block = [] \/
  exists m0 m1 rest,
    ascii_block = x49 :: x49 :: m0 :: m1 :: rest /\
    sint LittleEndian [m0; m1] = 42.
Proof.
  apply (init_signature LittleEndian 2 ascii_block
           {| entries := <[KInt 271 := IFDEntry__init__ 271
                             (VStr [x41; x43; x4d; x45]) (Some 2)]> ∅;
              dirty := 1 |}).
  vm_compute. reflexivity.
Defined.

(** X22 (witness): the theorem at a concrete input. *)
Lemma init_table_invariant_witness :
  decoded_under (KInt 271)
    (IFDEntry__init__ 271 (VStr [x41; x43; x4d; x45]) (Some 2)).
Proof.
  apply (init_table_invariant LittleEndian 2 (Some ascii_block)
           {| entries := <[KInt 271 := IFDEntry__init__ 271
                             (VStr [x41; x43; x4d; x45]) (Some 2)]> ∅;
              dirty := 1 |}).
  - vm_compute. reflexivity.
  - apply lookup_insert_eq.
Defined.

End DecodeExamples.
